(** * mpesajs documentation snippets: a shallow embedding

    The repository documents the mpesajs SDK.  The executable material it
    contains is the TypeScript shown in its pages: the error class
    hierarchy, [validatePaymentDetails], [retryWithExponentialBackoff],
    [TokenManager.getToken] and [isValidHttpsUrl].  Each of them is
    transcribed below as a Rocq function; promises are modelled by their
    completion (fulfilled with a value or rejected with a thrown error),
    timers and exchanges by an explicit record of the effects performed. *)

From Stdlib Require Import ZArith QArith List String Ascii Bool Lia Lqa Floats.
Import ListNotations.

Set Implicit Arguments.

Local Open Scope string_scope.
Local Open Scope list_scope.
Local Open Scope Z_scope.

(** ** Completions

    A call either returns a value or throws; [await] of a promise either
    yields its value or rethrows its rejection reason. *)

Inductive Completion (E A : Type) : Type :=
| Return (v : A)
| Throw (e : E).

Arguments Return {E A} v.
Arguments Throw {E A} e.

Definition bind {E A B} (c : Completion E A) (k : A -> Completion E B)
  : Completion E B :=
  match c with
  | Return v => k v
  | Throw e => Throw e
  end.

(** [try { body } catch { handler }] *)
Definition try_catch {E A} (body : Completion E A) (handler : E -> Completion E A)
  : Completion E A :=
  match body with
  | Return v => Return v
  | Throw e => handler e
  end.

(** ** The error classes (errors page, "Error Hierarchy") *)

Module Errors.

Inductive ErrorClass : Type :=
| Error
| MpesaError
| AuthenticationError
| NetworkError
| ValidationError
| StkPushError
| PayoutError
| RegisterUrlError.

Definition allClasses : list ErrorClass :=
  [Error; MpesaError; AuthenticationError; NetworkError; ValidationError;
   StkPushError; PayoutError; RegisterUrlError].

Definition class_eqb (c d : ErrorClass) : bool :=
  match c, d with
  | Error, Error | MpesaError, MpesaError
  | AuthenticationError, AuthenticationError | NetworkError, NetworkError
  | ValidationError, ValidationError | StkPushError, StkPushError
  | PayoutError, PayoutError | RegisterUrlError, RegisterUrlError => true
  | _, _ => false
  end.

(** [class C extends P] *)
Definition extends (c : ErrorClass) : option ErrorClass :=
  match c with
  | Error => None
  | MpesaError => Some Error
  | AuthenticationError | NetworkError | ValidationError
  | StkPushError | PayoutError | RegisterUrlError => Some MpesaError
  end.

(** The [name] member each class declares. *)
Definition name (c : ErrorClass) : string :=
  match c with
  | Error => "Error"
  | MpesaError => "MpesaError"
  | AuthenticationError => "AuthenticationError"
  | NetworkError => "NetworkError"
  | ValidationError => "ValidationError"
  | StkPushError => "StkPushError"
  | PayoutError => "PayoutError"
  | RegisterUrlError => "RegisterUrlError"
  end.

(** The members a class declares besides [name] and [message], in the
    order of the declaration. *)
Definition ownFields (c : ErrorClass) : list string :=
  match c with
  | Error | MpesaError | NetworkError => []
  | AuthenticationError => ["errorCode"]
  | ValidationError => ["field"]
  | StkPushError => ["responseCode"; "merchantRequestId"; "checkoutRequestId"]
  | PayoutError => ["errorCode"; "requestId"; "responseCode"; "conversationId"]
  | RegisterUrlError => ["responseCode"; "shortCode"]
  end.

(** Members of the base class [MpesaError], inherited by every subclass. *)
Definition baseFields : list string := ["name"; "message"].

(** The prototype chain of a class, nearest first. *)
Fixpoint chain (fuel : nat) (c : ErrorClass) : list ErrorClass :=
  match fuel with
  | O => [c]
  | S fuel =>
      match extends c with
      | None => [c]
      | Some p => c :: chain fuel p
      end
  end.

Definition subclassOf (c d : ErrorClass) : bool :=
  existsb (class_eqb d) (chain (List.length allClasses) c).

(** The subclasses declared directly under [MpesaError]. *)
Definition variants : list ErrorClass :=
  filter (fun c => match extends c with
                   | Some p => class_eqb p MpesaError
                   | None => false
                   end) allClasses.

(** Error objects.  Every field declared with [?] is optional. *)
Inductive Thrown : Type :=
| newError (message : string)
| newMpesaError (message : string)
| newAuthenticationError (message : string) (errorCode : option string)
| newNetworkError (message : string)
| newValidationError (message : string) (field : option string)
| newStkPushError (message : string)
    (responseCode merchantRequestId checkoutRequestId : option string)
| newPayoutError (message : string)
    (errorCode requestId responseCode conversationId : option string)
| newRegisterUrlError (message : string) (responseCode shortCode : option string).

Definition classOf (e : Thrown) : ErrorClass :=
  match e with
  | newError _ => Error
  | newMpesaError _ => MpesaError
  | newAuthenticationError _ _ => AuthenticationError
  | newNetworkError _ => NetworkError
  | newValidationError _ _ => ValidationError
  | newStkPushError _ _ _ _ => StkPushError
  | newPayoutError _ _ _ _ _ => PayoutError
  | newRegisterUrlError _ _ _ => RegisterUrlError
  end.

Definition message (e : Thrown) : string :=
  match e with
  | newError m | newMpesaError m | newAuthenticationError m _
  | newNetworkError m | newValidationError m _ | newStkPushError m _ _ _
  | newPayoutError m _ _ _ _ | newRegisterUrlError m _ _ => m
  end.

(** The structured members an error object carries, by key. *)
Definition props (e : Thrown) : list (string * option string) :=
  match e with
  | newError _ | newMpesaError _ | newNetworkError _ => []
  | newAuthenticationError _ ec => [("errorCode", ec)]
  | newValidationError _ f => [("field", f)]
  | newStkPushError _ rc mr cr =>
      [("responseCode", rc); ("merchantRequestId", mr); ("checkoutRequestId", cr)]
  | newPayoutError _ ec rq rc cv =>
      [("errorCode", ec); ("requestId", rq); ("responseCode", rc);
       ("conversationId", cv)]
  | newRegisterUrlError _ rc sc => [("responseCode", rc); ("shortCode", sc)]
  end.

(** [e instanceof C] *)
Definition instanceOf (e : Thrown) (c : ErrorClass) : bool :=
  subclassOf (classOf e) c.

(** [error.responseCode === code] for an error known to be a
    [StkPushError]; an absent member is [undefined] and equals no string. *)
Definition stkResponseCodeIs (e : Thrown) (code : string) : bool :=
  match e with
  | newStkPushError _ (Some rc) _ _ => String.eqb rc code
  | _ => false
  end.

End Errors.

(** What awaiting a [Promise<A>] yields. *)
Definition Promise (A : Type) : Type := Completion Errors.Thrown A.

(** ** Pre-flight validation (errors page, "Input Validation") *)

Module Validation.
Import Errors.

(** [amount] is a JavaScript [number], an IEEE 754 double.  The string
    members are sequences of code units, here one byte each; [length]
    counts them. *)
Record PaymentDetails : Type := {
  amount : float;
  phoneNumber : string;
  callbackUrl : string;
  reference : string;
  description : string
}.

(** The regular expressions of the snippets are a [^], a sequence of
    single-character atoms and a [$]; without the [m] flag the two
    anchors match only at the two ends of the input. *)
Inductive Atom : Type :=
| Lit (c : ascii)
| Range (lo hi : ascii).

Definition atom_matches (a : Atom) (c : ascii) : bool :=
  match a with
  | Lit x => Ascii.eqb c x
  | Range lo hi =>
      (nat_of_ascii lo <=? nat_of_ascii c)%nat
      && (nat_of_ascii c <=? nat_of_ascii hi)%nat
  end.

Fixpoint test (pattern : list Atom) (s : string) : bool :=
  match pattern, s with
  | [], EmptyString => true
  | a :: pattern, String c s => atom_matches a c && test pattern s
  | _, _ => false
  end.

(** [/^251[7-9][0-9]{8}$/] *)
Definition phonePattern : list Atom :=
  [Lit "2"; Lit "5"; Lit "1"; Range "7" "9"] ++ repeat (Range "0" "9") 8.

Definition startsWith (s pre : string) : bool := String.prefix pre s.

Definition validatePaymentDetails (details : PaymentDetails)
  : Completion Thrown unit :=
  if (amount details <=? 0)%float then
    Throw (newValidationError "Amount must be greater than 0" (Some "amount"))
  else if negb (test phonePattern (phoneNumber details)) then
    Throw (newValidationError
             "Invalid phone number format. Must start with 251 and be 12 digits long"
             (Some "phoneNumber"))
  else if negb (startsWith (callbackUrl details) "https://") then
    Throw (newValidationError "Callback URL must use HTTPS protocol"
             (Some "callbackUrl"))
  else if (12 <? String.length (reference details))%nat then
    Throw (newValidationError "Reference must not exceed 12 characters"
             (Some "reference"))
  else if (13 <? String.length (description details))%nat then
    Throw (newValidationError "Description must not exceed 13 characters"
             (Some "description"))
  else Return tt.

(** The five documented rules ("Common validation rules"). *)
Definition amountRule (d : PaymentDetails) : bool := (0 <? amount d)%float.
Definition phoneRule (d : PaymentDetails) : bool :=
  test phonePattern (phoneNumber d).
Definition callbackRule (d : PaymentDetails) : bool :=
  startsWith (callbackUrl d) "https://".
Definition referenceRule (d : PaymentDetails) : bool :=
  (String.length (reference d) <=? 12)%nat.
Definition descriptionRule (d : PaymentDetails) : bool :=
  (String.length (description d) <=? 13)%nat.

(** The rules in the order the function checks them, each with the
    [field] of the error it raises. *)
Definition rules : list (string * (PaymentDetails -> bool)) :=
  [("amount", amountRule); ("phoneNumber", phoneRule);
   ("callbackUrl", callbackRule); ("reference", referenceRule);
   ("description", descriptionRule)].

Definition firstViolated (d : PaymentDetails) : option string :=
  option_map fst (find (fun r => negb (snd r d)) rules).

(** The [field] of the error a validation run ends with, if any. *)
Definition thrownField (c : Completion Thrown unit) : option string :=
  match c with
  | Throw (newValidationError _ (Some f)) => Some f
  | _ => None
  end.

End Validation.

(** ** HTTPS check before URL registration (register-url page) *)

Module Url.

(** The part of a parsed [URL] object the snippets read. *)
Record URL : Type := { protocol : string; hostname : string }.

(** [new URL(s)] raises a [TypeError] on input that does not parse. *)
Inductive TypeError : Type := InvalidURL.

Section WithParser.

(** The platform's URL parser: [None] where [new URL] throws. *)
Variable parse : string -> option URL.

Definition newURL (urlString : string) : Completion TypeError URL :=
  match parse urlString with
  | Some u => Return u
  | None => Throw InvalidURL
  end.

Definition isValidHttpsUrl (urlString : string) : Completion TypeError bool :=
  try_catch
    (bind (newURL urlString) (fun url =>
       Return (String.eqb (protocol url) "https:")))
    (fun _ => Return false).

End WithParser.

End Url.

(** ** Retry with exponential backoff (errors page, "Retry Mechanism") *)

Module Retry.
Import Errors.

(** What one run of the helper did: how it completed, how many times it
    invoked [operation], and the timeouts it slept, oldest first, each
    in milliseconds. *)
Record Run (T : Type) : Type := {
  outcome : Promise T;
  calls : nat;
  sleeps : list Q
}.

(** The test guarding the sleep:
    [error instanceof NetworkError ||
     (error instanceof StkPushError && error.responseCode === '17')] *)
Definition isRetryable (error : Thrown) : bool :=
  instanceOf error NetworkError
  || (instanceOf error StkPushError && stkResponseCodeIs error "17").

(** Default arguments of the helper. *)
Definition defaultMaxRetries : Z := 3.
Definition defaultBaseDelay : Z := 1000.


Section Helper.

Variable T : Type.

(** [operation] is a closure whose result may change from call to call:
    [operation k] is the completion of its [k]-th invocation, counted
    from 0. *)
Variable operation : nat -> Promise T.
Variable maxRetries : Z.
Variable baseDelay : Z.

(** [random k] is the [k]-th value drawn from [Math.random()]. *)
Variable random : nat -> Q.

(** [baseDelay * Math.pow(2, attempts - 1)] *)
Definition backoff (attempts : Z) : Z := baseDelay * 2 ^ (attempts - 1).

(** [Math.random() * 100] *)
Definition jitterOf (draw : nat) : Q := (random draw * 100)%Q.

(** The [while] loop.  [attempts] is the loop variable of the source;
    [done] and [slept] record the effects so far.  One unit of [fuel]
    is spent per iteration. *)
Fixpoint retry_loop (fuel : nat) (attempts : Z) (done : nat) (slept : list Q)
  : option (Run T) :=
  match fuel with
  | O => None
  | S fuel =>
      if attempts <? maxRetries then
        match operation done with
        | Return v =>
            Some {| outcome := Return v; calls := S done; sleeps := slept |}
        | Throw error =>
            let attempts := attempts + 1 in
            if attempts =? maxRetries then
              Some {| outcome := Throw error; calls := S done; sleeps := slept |}
            else if isRetryable error then
              let delay := backoff attempts in
              let jitter := jitterOf (List.length slept) in
              retry_loop fuel attempts (S done)
                (slept ++ [(inject_Z delay + jitter)%Q])
            else
              Some {| outcome := Throw error; calls := S done; sleeps := slept |}
        end
      else
        Some {| outcome := Throw (newError "Maximum retry attempts reached");
                calls := done; sleeps := slept |}
  end.

(** The loop body runs at most once per value of [attempts] below
    [maxRetries], and the exit test once more. *)
Definition retryWithExponentialBackoff : option (Run T) :=
  retry_loop (S (Z.to_nat maxRetries)) 0 0 [].

(** The timeout before retry [n], counted from 1: the backoff of the
    [n]-th failure and the [n]-th random draw. *)
Definition sleepBefore (n : nat) : Q :=
  (inject_Z (backoff (Z.of_nat n)) + jitterOf (Nat.pred n))%Q.

(** The timeouts of a run that retried [n] times. *)
Definition sleepsOf (n : nat) : list Q := map sleepBefore (seq 1 n).

(** The [k]-th invocation failed with an error the helper retries. *)
Definition failsRetryably (k : nat) : Prop :=
  exists error, operation k = Throw error /\ isRetryable error = true.

(** How a run ends when the helper was given at least one attempt: after
    [n] retried failures, invocation [n] decides. *)
Definition EndsAt (r : Run T) (n : nat) : Prop :=
  calls r = S n
  /\ Z.of_nat (S n) <= maxRetries
  /\ outcome r = operation n
  /\ sleeps r = sleepsOf n
  /\ (forall k, (k < n)%nat -> failsRetryably k)
  /\ ((exists v, operation n = Return v)
      \/ (exists error, operation n = Throw error
          /\ (Z.of_nat (S n) = maxRetries \/ isRetryable error = false))).

End Helper.


(** The errors the default test lets through to a retry: the instances
    of [NetworkError] and the [StkPushError]s whose response code is
    '17'. *)
Definition RetryableShape (error : Thrown) : Prop :=
  (exists m, error = newNetworkError m)
  \/ (exists m mr cr, error = newStkPushError m (Some "17") mr cr).

End Retry.

(** ** Token reuse (authentication page, "Best Practices: Token Reuse") *)

Module Token.
Import Errors.

(** What [Auth.generateToken] resolves to; [expiresIn] is in seconds. *)
Record Generated : Type := {
  generated : string;
  tokenType : string;
  expiresIn : Z
}.

(** The private member [tokenData] when it is not [null]. *)
Record TokenData : Type := {
  token : string;
  expiresAt : Z
}.

(** A [TokenManager] instance is its [tokenData] member; the constructor
    leaves it [null]. *)
Definition TokenManager : Type := option TokenData.
Definition fresh : TokenManager := None.

(** The "Buffer of 1 minute" subtracted when a record is written. *)
Definition BUFFER : Z := 60000.

(** The record [getToken] writes from a response received at [now]. *)
Definition install (now : Z) (g : Generated) : TokenData :=
  {| token := generated g; expiresAt := now + (expiresIn g * 1000) - 60000 |}.

(** [getToken] up to its only [await]: it either returns the cached
    token at once or has called [generateToken] and is suspended. *)
Inductive Entered : Type :=
| Finished (t : string)
| Awaiting.

Definition getToken_enter (now : Z) (this : TokenManager) : Entered :=
  match this with
  | None => Awaiting
  | Some tokenData =>
      if now >=? expiresAt tokenData then Awaiting
      else Finished (token tokenData)
  end.

(** [getToken] from the moment the awaited promise settles, at [now]. *)
Definition getToken_resume (now : Z) (response : Promise Generated)
    (this : TokenManager) : Promise string * TokenManager :=
  match response with
  | Throw e => (Throw e, this)
  | Return g =>
      let tokenData := install now g in
      (Return (token tokenData), Some tokenData)
  end.

(** One whole call, nothing else running in between. *)
Record Call : Type := {
  result : Promise string;
  manager : TokenManager;
  exchanges : nat
}.

(** [now] is the clock at the test, [later] the clock when the exchange
    settles with [response]. *)
Definition getToken (now later : Z) (response : Promise Generated)
    (this : TokenManager) : Call :=
  match getToken_enter now this with
  | Finished t => {| result := Return t; manager := this; exchanges := 0 |}
  | Awaiting =>
      {| result := fst (getToken_resume later response this);
         manager := snd (getToken_resume later response this);
         exchanges := 1 |}
  end.

(** The instant the provider's token of a cached record lapses: the
    record stores it less the buffer. *)
Definition expiry (tokenData : TokenData) : Z := expiresAt tokenData + BUFFER.

(** *** Several callers on one instance

    JavaScript runs each call without interruption up to its [await] and
    again from the settlement of the awaited promise; calls interleave
    only at these two points. *)
Inductive Event : Type :=
| Invoke (caller : nat) (now : Z)
| Settle (caller : nat) (now : Z) (response : Promise Generated).

Record World : Type := {
  shared : TokenManager;
  issued : nat;                          (* calls of generateToken so far *)
  waiting : list nat;                    (* callers suspended at the await *)
  delivered : list (nat * Promise string) (* what each caller received *)
}.

Definition start (this : TokenManager) : World :=
  {| shared := this; issued := 0; waiting := []; delivered := [] |}.

Definition step (w : World) (ev : Event) : World :=
  match ev with
  | Invoke caller now =>
      match getToken_enter now (shared w) with
      | Finished t =>
          {| shared := shared w; issued := issued w; waiting := waiting w;
             delivered := delivered w ++ [(caller, Return t)] |}
      | Awaiting =>
          {| shared := shared w; issued := S (issued w);
             waiting := waiting w ++ [caller]; delivered := delivered w |}
      end
  | Settle caller now response =>
      if existsb (Nat.eqb caller) (waiting w) then
        {| shared := snd (getToken_resume now response (shared w));
           issued := issued w;
           waiting := filter (fun c => negb (Nat.eqb caller c)) (waiting w);
           delivered := delivered w ++
                          [(caller, fst (getToken_resume now response (shared w)))] |}
      else w
  end.

Definition run (w : World) (evs : list Event) : World := fold_left step evs w.

(** [n] callers invoking [getToken] at [now], numbered from [from]. *)
Definition invokeAll (from n : nat) (now : Z) : list Event :=
  map (fun c => Invoke c now) (seq from n).

(** What [caller] received, if its call has completed. *)
Definition received (w : World) (caller : nat) : option (Promise string) :=
  option_map snd (find (fun d => Nat.eqb caller (fst d)) (delivered w)).

End Token.

(** ** Rate limiting

    The pages name a [RateLimiter] class and give its two settings; its
    code is not part of the documentation. *)

Module Limiter.

(** Settings of the documented environment file. *)
Definition MPESAJS_MAX_CONCURRENT : nat := 1000.
Definition MPESAJS_TIME_WINDOW_MS : Z := 60000.

(** Modelled from the spec: the quota record of the absent [RateLimiter]
    class, {windowStart, windowDurationMs, maxConcurrent, activeCount,
    admittedInWindow}, with the configured count of new acquisitions per
    window as [windowBudget]. *)
Record QuotaWindow : Type := {
  windowStart : Z;
  windowDurationMs : Z;
  maxConcurrent : nat;
  windowBudget : nat;
  activeCount : nat;
  admittedInWindow : nat
}.

(** Modelled from the spec: the absent constructor; the window is created
    with the limiter, with nothing outstanding and nothing admitted. *)
Definition create (now duration : Z) (ceiling budget : nat) : QuotaWindow :=
  {| windowStart := now; windowDurationMs := duration;
     maxConcurrent := ceiling; windowBudget := budget;
     activeCount := 0; admittedInWindow := 0 |}.

(** Modelled from the spec: the absent window test; the boundary of the
    current window is [windowStart + windowDurationMs]. *)
Definition boundaryCrossed (q : QuotaWindow) (now : Z) : bool :=
  windowStart q + windowDurationMs q <=? now.

(** Modelled from the spec: the absent window reset; boundaries are
    aligned from the creation time, so the new window starts a whole
    number of durations after the old one, and the admission counter
    restarts from zero. *)
Definition roll (q : QuotaWindow) (now : Z) : QuotaWindow :=
  if boundaryCrossed q now then
    {| windowStart :=
         windowStart q
         + ((now - windowStart q) / windowDurationMs q) * windowDurationMs q;
       windowDurationMs := windowDurationMs q;
       maxConcurrent := maxConcurrent q; windowBudget := windowBudget q;
       activeCount := activeCount q; admittedInWindow := 0 |}
  else q.

(** Modelled from the spec: one evaluation of the absent [Acquire] inside
    its critical section; both gates are evaluated at acquisition time
    and a caller failing either one stays blocked. *)
Definition tryAcquire (now : Z) (q : QuotaWindow) : bool * QuotaWindow :=
  let q := roll q now in
  if (activeCount q <? maxConcurrent q)%nat
     && (admittedInWindow q <? windowBudget q)%nat
  then (true,
        {| windowStart := windowStart q; windowDurationMs := windowDurationMs q;
           maxConcurrent := maxConcurrent q; windowBudget := windowBudget q;
           activeCount := S (activeCount q);
           admittedInWindow := S (admittedInWindow q) |})
  else (false, q).

(** Modelled from the spec: the absent [release] function returned by a
    successful [Acquire]. *)
Definition release (q : QuotaWindow) : QuotaWindow :=
  {| windowStart := windowStart q; windowDurationMs := windowDurationMs q;
     maxConcurrent := maxConcurrent q; windowBudget := windowBudget q;
     activeCount := Nat.pred (activeCount q);
     admittedInWindow := admittedInWindow q |}.

(** Modelled from the spec: what callers do to one limiter, serialised by
    its mutual exclusion: an acquisition attempt at a clock reading, a
    release, or a waiting caller giving up (cancellation or deadline),
    which never increments a counter. *)
Inductive Event : Type :=
| Acquire (now : Z)
| Release
| Cancel.

(** Modelled from the spec: the effect of one such event on the shared
    quota record. *)
Definition step (q : QuotaWindow) (ev : Event) : QuotaWindow :=
  match ev with
  | Acquire now => snd (tryAcquire now q)
  | Release => release q
  | Cancel => q
  end.

(** Modelled from the spec: every state of the quota record observed
    along a sequence of events, the first one included. *)
Fixpoint observed (q : QuotaWindow) (evs : list Event) : list QuotaWindow :=
  match evs with
  | [] => [q]
  | ev :: evs => q :: observed (step q ev) evs
  end.



End Limiter.

(** ** Token retrieval with retries (authentication page, "Error Recovery") *)

Module AuthRetry.
Import Errors.

(** What one call of [getAuthToken] did: its completion, the calls of
    [generateToken] it made and the timeouts it slept, in milliseconds. *)
Record Run : Type := {
  outcome : Promise string;
  calls : nat;
  sleeps : list Z
}.

Definition defaultRetries : Z := 3.

Section GetAuthToken.

(** [generateToken k] is the completion of the [k]-th call of
    [auth.generateToken()], counted from 0. *)
Variable generateToken : nat -> Promise Token.Generated.

(** The recursion of [getAuthToken]: each level makes one call and, on a
    [NetworkError] with [retries > 0], sleeps 1000 ms and recurses with
    [retries - 1].  One unit of [fuel] is spent per level. *)
Fixpoint getAuthToken_from (fuel : nat) (retries : Z) (done : nat) (slept : list Z)
  : option Run :=
  match fuel with
  | O => None
  | S fuel =>
      match generateToken done with
      | Return g =>
          Some {| outcome := Return (Token.generated g); calls := S done;
                  sleeps := slept |}
      | Throw error =>
          if instanceOf error NetworkError && (retries >? 0) then
            getAuthToken_from fuel (retries - 1) (S done) (slept ++ [1000])
          else
            Some {| outcome := Throw error; calls := S done; sleeps := slept |}
      end
  end.

Definition getAuthToken (retries : Z) : option Run :=
  getAuthToken_from (S (Z.to_nat retries)) retries 0 [].

End GetAuthToken.

End AuthRetry.

(** ** Retry with linear backoff (register-url and payout pages, "Error
    Recovery"): [registerUrlWithRetry] and [sendPayoutWithRetry] are the
    same loop around [registerUrl.register] and [payout.send]. *)

Module LinearRetry.
Import Errors.

(** The loop ends with [throw lastError], and [lastError] starts as
    [null]: the rejection reason is an error object or [null] ([None]). *)
Record Run (T : Type) : Type := {
  outcome : Completion (option Thrown) T;
  calls : nat;
  sleeps : list Z
}.

Definition defaultMaxRetries : Z := 3.

Section WithRetry.

Variable T : Type.

(** [operation k] is the completion of the [k]-th call of the wrapped
    request, counted from 0. *)
Variable operation : nat -> Promise T.
Variable maxRetries : Z.

(** The [for] loop; [attempt] and [lastError] are the variables of the
    source.  One unit of [fuel] is spent per iteration. *)
Fixpoint retry_loop (fuel : nat) (attempt : Z) (lastError : option Thrown)
    (done : nat) (slept : list Z) : option (Run T) :=
  match fuel with
  | O => None
  | S fuel =>
      if attempt <=? maxRetries then
        match operation done with
        | Return v =>
            Some {| outcome := Return v; calls := S done; sleeps := slept |}
        | Throw error =>
            if instanceOf error NetworkError then
              retry_loop fuel (attempt + 1) (Some error) (S done)
                (slept ++ [attempt * 1000])
            else
              Some {| outcome := Throw (Some error); calls := S done;
                      sleeps := slept |}
        end
      else
        Some {| outcome := Throw lastError; calls := done; sleeps := slept |}
  end.

Definition withRetry : option (Run T) :=
  retry_loop (S (Z.to_nat maxRetries)) 1 None 0 [].

End WithRetry.

(** The timeouts of [n] failed attempts: 1000, 2000, ..., [n * 1000]. *)
Definition linearSleeps (n : nat) : list Z :=
  map (fun k => Z.of_nat k * 1000) (seq 1 n).

End LinearRetry.

(** ** URL validation and registration (register-url page) *)

Module Registration.
Import Errors Url.

(** [s.includes(sub)] *)
Fixpoint includes (s sub : string) : bool :=
  String.prefix sub s
  || match s with
     | EmptyString => false
     | String _ s' => includes s' sub
     end.

(** A [TypeError] that is not caught travels on as a thrown error
    object; it is an instance of [Error] and of no SDK class. *)
Definition asThrown {A} (c : Completion TypeError A) : Completion Thrown A :=
  match c with
  | Return v => Return v
  | Throw InvalidURL => Throw (newError "Invalid URL")
  end.

(** The two kinds of callback URL, ['confirmation' | 'validation']. *)
Inductive CallbackType : Type := confirmation | validation.

Definition typeName (type : CallbackType) : string :=
  match type with
  | confirmation => "confirmation"
  | validation => "validation"
  end.

(** The arguments of one call of [registerUrl.register];
    [process.env.MPESA_BUSINESS_SHORTCODE] is [undefined] when unset. *)
Record RegisterArgs : Type := {
  shortCode : option string;
  responseType : string;
  commandId : string;
  confirmationUrl : string;
  validationUrl : string
}.

Record RegisterUrlResponse : Type := {
  responseCode : string;
  responseMessage : string;
  customerMessage : string;
  timestamp : string
}.

(** What a registration wrapper did: its completion and the calls of
    [register] it made. *)
Record Attempt : Type := {
  outcome : Promise RegisterUrlResponse;
  registerCalls : list RegisterArgs
}.

Section WithParser.

Variable parse : string -> option URL.

(** [UrlValidator.isValidDomain] *)
Definition isValidDomain (urlString : string) : Completion TypeError bool :=
  try_catch
    (bind (newURL parse urlString) (fun url =>
       Return (negb (includes (hostname url) "localhost")
               && negb (includes (hostname url) "127.0.0.1"))))
    (fun _ => Return false).

(** [UrlValidator.validateCallbackUrl] *)
Definition validateCallbackUrl (url : string) (type : CallbackType)
  : Completion Thrown unit :=
  bind (asThrown (isValidHttpsUrl parse url)) (fun https =>
  if negb https then
    Throw (newValidationError
             (typeName type ++ " URL must use HTTPS protocol")%string
             (Some (typeName type ++ "Url")%string))
  else
    bind (asThrown (isValidDomain url)) (fun public =>
    if negb public then
      Throw (newValidationError
               (typeName type ++ " URL must be a public domain")%string
               (Some (typeName type ++ "Url")%string))
    else Return tt)).

(** A URL that parses, uses 'https:' and names a host free of
    'localhost' and '127.0.0.1'. *)
Definition Accepted (url : string) : Prop :=
  exists u, parse url = Some u /\ protocol u = "https:"
            /\ includes (hostname u) "localhost" = false
            /\ includes (hostname u) "127.0.0.1" = false.

(** [MPESA_BUSINESS_SHORTCODE] of the environment and the completion of
    the call of [register], should one be made. *)
Variable MPESA_BUSINESS_SHORTCODE : option string.
Variable response : Promise RegisterUrlResponse.

Definition registerArgs (confirmationUrl validationUrl : string) : RegisterArgs :=
  {| shortCode := MPESA_BUSINESS_SHORTCODE; responseType := "Completed";
     commandId := "RegisterURL"; confirmationUrl := confirmationUrl;
     validationUrl := validationUrl |}.

(** [registerCallbackUrls] ("With URL validation") *)
Definition registerCallbackUrls (confirmationUrl validationUrl : string) : Attempt :=
  match asThrown (isValidHttpsUrl parse confirmationUrl) with
  | Throw e => {| outcome := Throw e; registerCalls := [] |}
  | Return okConfirmation =>
      if negb okConfirmation then
        {| outcome := Throw (newValidationError "Invalid confirmation URL format"
                               (Some "confirmationUrl"));
           registerCalls := [] |}
      else
        match asThrown (isValidHttpsUrl parse validationUrl) with
        | Throw e => {| outcome := Throw e; registerCalls := [] |}
        | Return okValidation =>
            if negb okValidation then
              {| outcome := Throw (newValidationError "Invalid validation URL format"
                                     (Some "validationUrl"));
                 registerCalls := [] |}
            else
              {| outcome := response;
                 registerCalls := [registerArgs confirmationUrl validationUrl] |}
        end
  end.

(** [validateAndRegister] ("URL Validation", usage) *)
Definition validateAndRegister (confirmationUrl validationUrl : string) : Attempt :=
  match validateCallbackUrl confirmationUrl confirmation with
  | Throw e => {| outcome := Throw e; registerCalls := [] |}
  | Return _ =>
      match validateCallbackUrl validationUrl validation with
      | Throw e => {| outcome := Throw e; registerCalls := [] |}
      | Return _ =>
          {| outcome := response;
             registerCalls := [registerArgs confirmationUrl validationUrl] |}
      end
  end.

End WithParser.

(** *** [UrlManager] *)

(** The private member [urls]; [lastRegistered] is a [Date], kept as its
    clock reading. *)
Record Urls : Type := {
  confirmationOf : option string;
  validationOf : option string;
  registered : bool;
  lastRegistered : option Z
}.

(** The initializer of [urls]: [{ registered: false }]. *)
Definition initialUrls : Urls :=
  {| confirmationOf := None; validationOf := None; registered := false;
     lastRegistered := None |}.

(** [member !== url], where an absent member is [undefined]. *)
Definition differs (member : option string) (url : string) : bool :=
  match member with
  | Some s => negb (String.eqb s url)
  | None => true
  end.

Record Ensured : Type := {
  ensured : Promise unit;
  urls : Urls;
  calls : list RegisterArgs
}.

(** [UrlManager.ensureUrlsRegistered]; [now] is the clock at [new Date()],
    [response] the completion of the call of [register], should one be
    made. *)
Definition ensureUrlsRegistered (MPESA_BUSINESS_SHORTCODE : option string)
    (now : Z) (response : Promise RegisterUrlResponse)
    (confirmationUrl validationUrl : string) (this : Urls) : Ensured :=
  if differs (confirmationOf this) confirmationUrl
     || differs (validationOf this) validationUrl
     || negb (registered this)
  then
    match response with
    | Throw e =>
        {| ensured := Throw e; urls := this;
           calls := [registerArgs MPESA_BUSINESS_SHORTCODE confirmationUrl validationUrl] |}
    | Return _ =>
        {| ensured := Return tt;
           urls := {| confirmationOf := Some confirmationUrl;
                      validationOf := Some validationUrl;
                      registered := true; lastRegistered := Some now |};
           calls := [registerArgs MPESA_BUSINESS_SHORTCODE confirmationUrl validationUrl] |}
    end
  else {| ensured := Return tt; urls := this; calls := [] |}.

(** One call of [ensureUrlsRegistered] as seen from outside. *)
Record Request : Type := {
  at_time : Z;
  with_response : Promise RegisterUrlResponse;
  confirmationWanted : string;
  validationWanted : string
}.

(** The manager after a sequence of calls, each run to completion. *)
Definition after (env : option string) (this : Urls) (requests : list Request) : Urls :=
  fold_left
    (fun u r => urls (ensureUrlsRegistered env (at_time r) (with_response r)
                        (confirmationWanted r) (validationWanted r) u))
    requests this.

End Registration.

(** ** Payout helpers (payout page, "Best Practices" and "Batch Processing") *)

Module Payouts.
Import Errors.

(** *** [PayoutValidator] *)

(** [/^254[0-9]{9}$/] *)
Definition payoutPhonePattern : list Validation.Atom :=
  [Validation.Lit "2"; Validation.Lit "5"; Validation.Lit "4"]
  ++ repeat (Validation.Range "0" "9") 9.

Definition validatePhoneNumber (phoneNumber : string) : bool :=
  Validation.test payoutPhonePattern phoneNumber.

Definition validateAmount (amount : float) : bool :=
  ((0 <? amount) && (amount <=? 150000))%float.

Definition validateRemarks (remarks : string) : bool :=
  ((0 <? String.length remarks) && (String.length remarks <=? 100))%nat.

Definition validateCommandId (commandId : string) : bool :=
  existsb (String.eqb commandId)
    ["BusinessPayment"; "SalaryPayment"; "PromotionPayment"].

(** *** [PayoutTracker] *)

(** The members of [PayoutData] the helpers read. *)
Record PayoutData : Type := {
  requestId : string;
  amount : float;
  phoneNumber : string;
  remarks : string;
  occasion : option string;
  commandId : option string
}.

Inductive Status : Type := pending | completed | failed.

Record Tracked : Type := {
  trackedRequestId : string;
  trackedAmount : float;
  recipient : string;
  timestamp : Z;
  status : Status;
  transactionId : option string
}.

(** The private [Map] from conversation id to record, read and written
    only through [get] and [set]. *)
Definition Tracker : Type := string -> option Tracked.

Definition emptyTracker : Tracker := fun _ => None.

Definition get (conversationId : string) (payouts : Tracker) : option Tracked :=
  payouts conversationId.

Definition set (conversationId : string) (payout : Tracked) (payouts : Tracker)
  : Tracker :=
  fun key => if String.eqb key conversationId then Some payout else payouts key.

(** [trackPayout]; [now] is the clock at [Date.now()]. *)
Definition trackPayout (conversationId : string) (data : PayoutData) (now : Z)
    (payouts : Tracker) : Tracker :=
  set conversationId
    {| trackedRequestId := requestId data; trackedAmount := amount data;
       recipient := phoneNumber data; timestamp := now; status := pending;
       transactionId := None |}
    payouts.

(** [if (transactionId)]: an optional string is truthy when it is given
    and not empty. *)
Definition truthy (s : option string) : bool :=
  match s with
  | Some (String _ _) => true
  | _ => false
  end.

(** [updateStatus] *)
Definition updateStatus (conversationId : string) (newStatus : Status)
    (newTransactionId : option string) (payouts : Tracker) : Tracker :=
  match get conversationId payouts with
  | Some payout =>
      set conversationId
        {| trackedRequestId := trackedRequestId payout;
           trackedAmount := trackedAmount payout;
           recipient := recipient payout; timestamp := timestamp payout;
           status := newStatus;
           transactionId := if truthy newTransactionId then newTransactionId
                            else transactionId payout |}
        payouts
  | None => payouts
  end.

(** *** [PayoutProcessor] *)

Record PayoutResponse : Type := {
  ConversationID : string;
  OriginatorConversationID : string;
  ResponseCode : string;
  ResponseDescription : string
}.

(** The four arguments [processBatch] passes to [payout.send]. *)
Record SendArgs : Type := {
  sentAmount : float;
  sentRemarks : string;
  sentOccasion : option string;
  sentCommandId : option string
}.

Definition sendArgs (data : PayoutData) : SendArgs :=
  {| sentAmount := amount data; sentRemarks := remarks data;
     sentOccasion := occasion data; sentCommandId := commandId data |}.

Record Results : Type := {
  successful : list PayoutResponse;
  failedPayouts : list (PayoutData * Thrown)
}.

Section ProcessBatch.

(** [send k args] is the completion of the [k]-th call of [payout.send],
    counted from 0, made with [args]. *)
Variable send : nat -> SendArgs -> Promise PayoutResponse.

(** The [for ... of] loop, from the [k]-th call on. *)
Fixpoint processFrom (k : nat) (payouts : list PayoutData) (results : Results)
  : Results :=
  match payouts with
  | [] => results
  | data :: payouts =>
      match send k (sendArgs data) with
      | Return result =>
          processFrom (S k) payouts
            {| successful := successful results ++ [result];
               failedPayouts := failedPayouts results |}
      | Throw error =>
          processFrom (S k) payouts
            {| successful := successful results;
               failedPayouts := failedPayouts results ++ [(data, error)] |}
      end
  end.

Definition processBatch (payouts : list PayoutData) : Results :=
  processFrom 0 payouts {| successful := []; failedPayouts := [] |}.

(** The payouts of a batch with the completion each one met. *)
Definition attempted (k : nat) (payouts : list PayoutData)
  : list (PayoutData * Promise PayoutResponse) :=
  map (fun p => (snd p, send (fst p) (sendArgs (snd p))))
    (combine (seq k (List.length payouts)) payouts).

End ProcessBatch.

(** The responses among a list of completions, in order. *)
Fixpoint responsesOf (l : list (PayoutData * Promise PayoutResponse))
  : list PayoutResponse :=
  match l with
  | [] => []
  | (_, Return r) :: l => r :: responsesOf l
  | (_, Throw _) :: l => responsesOf l
  end.

(** The failures among a list of completions, in order. *)
Fixpoint failuresOf (l : list (PayoutData * Promise PayoutResponse))
  : list (PayoutData * Thrown) :=
  match l with
  | [] => []
  | (_, Return _) :: l => failuresOf l
  | (d, Throw e) :: l => (d, e) :: failuresOf l
  end.

End Payouts.

(** ** Logging and reporting errors (errors page, "Structured Error
    Logging"; STK push page, "Proper Error Handling") *)

Module Reporting.
Import Errors.

(** [error.key]: the member of an error object, [undefined] ([None])
    where the object has no such member or the member was not given. *)
Definition member (error : Thrown) (key : string) : option string :=
  match find (fun p => String.eqb (fst p) key) (props error) with
  | Some (_, v) => v
  | None => None
  end.

Record ErrorLog : Type := {
  timestamp : string;
  errorType : string;
  logMessage : string;
  details : list (string * option string);
  stack : option string
}.

(** [logError]; [now] is [new Date().toISOString()], [development] tells
    whether [NODE_ENV] is 'development', [stackOf] gives [error.stack]. *)
Definition logError (now : string) (development : bool)
    (stackOf : Thrown -> option string) (error : Thrown) : ErrorLog :=
  {| timestamp := now;
     errorType := name (classOf error);
     logMessage := message error;
     details :=
       if instanceOf error StkPushError then
         [("responseCode", member error "responseCode");
          ("merchantRequestId", member error "merchantRequestId");
          ("checkoutRequestId", member error "checkoutRequestId")]
       else if instanceOf error PayoutError then
         [("errorCode", member error "errorCode");
          ("requestId", member error "requestId");
          ("responseCode", member error "responseCode");
          ("conversationId", member error "conversationId")]
       else if instanceOf error ValidationError then
         [("field", member error "field")]
       else [];
     stack := if development then stackOf error else None |}.




End Reporting.

(** ** Time spent waiting *)

Module Waiting.


End Waiting.

(** ** Sample inputs *)

Module Samples.

(** A stand-in for the platform's URL parser on the few inputs used in
    the examples below. *)
Definition parse (s : string) : option Url.URL :=
  if String.eqb s "https://example.com/confirm" then
    Some {| Url.protocol := "https:"; Url.hostname := "example.com" |}
  else if String.eqb s "https://example.com/validate" then
    Some {| Url.protocol := "https:"; Url.hostname := "example.com" |}
  else if String.eqb s "http://example.com/confirm" then
    Some {| Url.protocol := "http:"; Url.hostname := "example.com" |}
  else if String.eqb s "https://localhost:3000/confirm" then
    Some {| Url.protocol := "https:"; Url.hostname := "localhost" |}
  else if String.eqb s "https://mylocalhost.example.com/confirm" then
    Some {| Url.protocol := "https:"; Url.hostname := "mylocalhost.example.com" |}
  else None.

(** A successful answer of [register]. *)
Definition accepted : Promise Registration.RegisterUrlResponse :=
  Return {| Registration.responseCode := "0";
            Registration.responseMessage := "Success";
            Registration.customerMessage := "Success";
            Registration.timestamp := "2025-01-01T00:00:00Z" |}.

End Samples.

(** * Properties *)

(** ** The retry helper *)

Section RetryFacts.
Import Errors Retry.

Variable T : Type.
Variable operation : nat -> Promise T.
Variable maxRetries : Z.
Variable baseDelay : Z.
Variable random : nat -> Q.

Lemma sleepsOf_length n : List.length (sleepsOf baseDelay random n) = n.
Proof. unfold sleepsOf. now rewrite length_map, length_seq. Qed.

Lemma sleepsOf_succ n :
  sleepsOf baseDelay random (S n)
  = sleepsOf baseDelay random n ++ [sleepBefore baseDelay random (S n)].
Proof. unfold sleepsOf. now rewrite seq_S, map_app. Qed.


Ltac ends_here Hop :=
  unfold EndsAt; cbn [calls outcome sleeps]; rewrite ?Hop;
  split; [reflexivity|]; split; [lia|]; split; [reflexivity|];
  split; [reflexivity|]; split; [assumption|].

Lemma retry_loop_ends fuel : forall done,
  Z.of_nat done < maxRetries ->
  maxRetries - Z.of_nat done <= Z.of_nat fuel ->
  (forall k, (k < done)%nat -> failsRetryably operation k) ->
  exists r n, retry_loop operation maxRetries baseDelay random fuel (Z.of_nat done) done (sleepsOf baseDelay random done) = Some r
              /\ EndsAt operation maxRetries baseDelay random r n.
Proof.
  induction fuel as [|fuel IH]; intros done Hlt Hfuel Hprev.
  - simpl in Hfuel. lia.
  - cbn [retry_loop].
    destruct (Z.ltb_spec (Z.of_nat done) maxRetries) as [_|Hge]; [|lia].
    destruct (operation done) as [v|error] eqn:Hop.
    + eexists; exists done. split; [reflexivity|]. ends_here Hop.
      left. now exists v.
    + destruct (Z.eqb_spec (Z.of_nat done + 1) maxRetries) as [Heq|Hne].
      * eexists; exists done. split; [reflexivity|]. ends_here Hop.
        right. exists error. split; [reflexivity|left; lia].
      * destruct (isRetryable error) eqn:Hretry.
        -- rewrite sleepsOf_length.
           replace (Z.of_nat done + 1) with (Z.of_nat (S done)) by lia.
           change (inject_Z (backoff baseDelay (Z.of_nat (S done)))
                   + jitterOf random done)%Q
             with (sleepBefore baseDelay random (S done)).
           rewrite <- sleepsOf_succ.
           apply IH; [lia|lia|].
           intros k Hk. destruct (Nat.eq_dec k done) as [->|Hkd].
           ++ exists error. now split.
           ++ apply Hprev. lia.
        -- eexists; exists done. split; [reflexivity|]. ends_here Hop.
           right. exists error. split; [reflexivity|now right].
Qed.

(** The helper always completes: the fuel it is given suffices. *)
Lemma helper_total : exists r, retryWithExponentialBackoff operation maxRetries baseDelay random = Some r.
Proof.
  unfold retryWithExponentialBackoff.
  destruct (Z.ltb_spec 0 maxRetries) as [Hpos|Hnonpos].
  - destruct (@retry_loop_ends (S (Z.to_nat maxRetries)) 0%nat) as (r & n & Hr & _).
    + simpl. lia.
    + simpl. lia.
    + intros k Hk. lia.
    + exists r. exact Hr.
  - cbn [retry_loop].
    destruct (Z.ltb_spec 0 maxRetries) as [Hlt|_]; [lia|]. eauto.
Qed.

(** With no attempt allowed the operation is never invoked and the helper
    throws an error of its own. *)
Lemma helper_no_attempt :
  maxRetries <= 0 ->
  retryWithExponentialBackoff operation maxRetries baseDelay random = Some {| outcome := Throw (newError "Maximum retry attempts reached");
                   calls := 0; sleeps := [] |}.
Proof.
  intros Hle. unfold retryWithExponentialBackoff.
  cbn [retry_loop].
  destruct (Z.ltb_spec 0 maxRetries) as [Hlt|_]; [lia|reflexivity].
Qed.

(** With at least one attempt allowed the run ends at some invocation. *)
Lemma helper_ends r :
  1 <= maxRetries -> retryWithExponentialBackoff operation maxRetries baseDelay random = Some r -> exists n, EndsAt operation maxRetries baseDelay random r n.
Proof.
  intros Hpos Hr. unfold retryWithExponentialBackoff in Hr.
  destruct (@retry_loop_ends (S (Z.to_nat maxRetries)) 0%nat) as (r' & n & Hr' & Hends).
  - simpl. lia.
  - simpl. lia.
  - intros k Hk. lia.
  - simpl Z.of_nat in Hr'. cbn [sleepsOf seq map] in Hr'.
    rewrite Hr in Hr'. inversion Hr'; subst r'. now exists n.
Qed.

Lemma isRetryable_shape error :
  isRetryable error = true <-> RetryableShape error.
Proof.
  unfold RetryableShape. split.
  - destruct error as [m|m|m ec|m|m f|m rc mr cr|m ec rq rc cv|m rc sc];
      try discriminate; intros H.
    + left. now exists m.
    + right. destruct rc as [rc|]; [|discriminate].
      cbn in H. apply String.eqb_eq in H. subst rc. now exists m, mr, cr.
  - intros [[m ->]|(m & mr & cr & ->)]; reflexivity.
Qed.

Lemma terminal_classes_not_retryable error :
  (instanceOf error ValidationError || instanceOf error AuthenticationError)%bool
  = true ->
  isRetryable error = false.
Proof. destruct error; try discriminate; reflexivity. Qed.




(** C2 (amended): [maxRetries] bounds the invocations in total, the first
    one included; the helper completes, an error it throws after at
    least one attempt is the error of its last invocation itself, and an
    operation failing retryably on every attempt is invoked exactly
    [maxRetries] times. *)
Theorem attempts_bounded_and_last_error_verbatim :
  1 <= maxRetries ->
  exists r,
    retryWithExponentialBackoff operation maxRetries baseDelay random = Some r
    /\ (1 <= calls r <= Z.to_nat maxRetries)%nat
    /\ outcome r = operation (Nat.pred (calls r))
    /\ List.length (sleeps r) = Nat.pred (calls r)
    /\ ((forall k, Z.of_nat k < maxRetries -> failsRetryably operation k) ->
        calls r = Z.to_nat maxRetries).
Proof.
  intros Hpos. destruct helper_total as [r Hr]. exists r.
  split; [exact Hr|].
  destruct (helper_ends Hpos Hr) as (n & Hc & Hn & Ho & Hs & _ & Hstop).
  rewrite Hc. cbn [Nat.pred]. split; [lia|]. split; [exact Ho|].
  split; [rewrite Hs; apply sleepsOf_length|].
  intros Hall. destruct (Hall n ltac:(lia)) as (e & He & Hre).
  destruct Hstop as [[v Hv]|(e' & He' & [Hlast|Hno])]; [congruence|lia|congruence].
Qed.

(** C3: under the default test a [ValidationError] or an
    [AuthenticationError] thrown by the first attempt is rethrown at
    once, the operation having been invoked once and no timeout slept;
    and every attempt that was followed by another one failed with a
    [NetworkError] or a [StkPushError] of response code '17'. *)
Theorem terminal_errors_are_not_retried :
  1 <= maxRetries ->
  (forall e,
      operation 0%nat = Throw e ->
      (instanceOf e ValidationError || instanceOf e AuthenticationError)%bool = true ->
      retryWithExponentialBackoff operation maxRetries baseDelay random
      = Some {| outcome := Throw e; calls := 1; sleeps := [] |})
  /\ (forall r k,
        retryWithExponentialBackoff operation maxRetries baseDelay random = Some r ->
        (S k < calls r)%nat ->
        exists error, operation k = Throw error /\ RetryableShape error).
Proof.
  intros Hpos. split.
  - intros e He Hterm. destruct helper_total as [r Hr]. rewrite Hr. f_equal.
    destruct (helper_ends Hpos Hr) as (n & Hc & _ & Ho & Hs & Hprev & _).
    destruct n as [|n].
    + destruct r as [o c s]; cbn in *. subst. now rewrite He.
    + destruct (Hprev 0%nat ltac:(lia)) as (e' & He' & Hre).
      rewrite He in He'. inversion He'; subst e'.
      rewrite (terminal_classes_not_retryable e Hterm) in Hre. discriminate.
  - intros r k Hr Hk.
    destruct (helper_ends Hpos Hr) as (n & Hc & _ & _ & _ & Hprev & _).
    destruct (Hprev k ltac:(lia)) as (e & He & Hre).
    exists e. split; [exact He|]. now apply isRetryable_shape.
Qed.

(** The errors a run can end with: the error of its last invocation, or,
    when no attempt is allowed, a plain [Error] made by the helper. *)
Lemma helper_throws r e :
  retryWithExponentialBackoff operation maxRetries baseDelay random = Some r ->
  outcome r = Throw e ->
  (1 <= maxRetries /\ exists k, (k < calls r)%nat /\ operation k = Throw e)
  \/ (maxRetries <= 0 /\ calls r = 0%nat
      /\ e = newError "Maximum retry attempts reached").
Proof.
  intros Hr He. destruct (Z.le_gt_cases 1 maxRetries) as [Hpos|Hnone].
  - left. split; [exact Hpos|].
    destruct (helper_ends Hpos Hr) as (n & Hc & _ & Ho & _).
    exists n. split; [lia|congruence].
  - right. rewrite helper_no_attempt in Hr by lia. inversion Hr; subst r.
    cbn in He. inversion He. repeat split. lia.
Qed.

End RetryFacts.

(** *** The retry helper on concrete runs *)

(** With the documented settings (three attempts, 1000 ms) an operation
    that is down throughout is invoked three times, after timeouts of
    1000 ms and 2000 ms plus jitter. *)
Example retry_defaults_network_down :
  Retry.retryWithExponentialBackoff
    (fun _ : nat => (Throw (Errors.newNetworkError "timeout") : Promise unit))
    Retry.defaultMaxRetries Retry.defaultBaseDelay (fun _ : nat => 0%Q)
  = Some {| Retry.outcome := Throw (Errors.newNetworkError "timeout");
            Retry.calls := 3;
            Retry.sleeps := [(inject_Z 1000 + 0 * 100)%Q; (inject_Z 2000 + 0 * 100)%Q] |}.
Proof. reflexivity. Qed.



Lemma attempts_bounded_and_last_error_verbatim_witness :
  1 <= 3
  /\ exists r,
      Retry.retryWithExponentialBackoff
        (fun k : nat =>
           (Throw (Errors.newNetworkError
                     (nth k ["first"; "second"; "third"; "fourth"] "later"))
            : Promise unit))
        3 1000 (fun _ : nat => 0%Q) = Some r
      /\ (1 <= Retry.calls r <= 3)%nat.
Proof.
  split; [lia|].
  destruct (@attempts_bounded_and_last_error_verbatim unit
              (fun k : nat =>
                 Throw (Errors.newNetworkError
                          (nth k ["first"; "second"; "third"; "fourth"] "later")))
              3 1000 (fun _ : nat => 0%Q) ltac:(lia))
    as (r & Hr & Hcalls & _).
  exists r. split; [exact Hr|exact Hcalls].
Defined.

(** C2, as stated, fails: with [maxRetries = 3] an operation failing on
    every attempt is invoked three times, not four, and the error thrown
    is the third one. *)
Lemma three_attempts_not_four :
  exists r,
    Retry.retryWithExponentialBackoff
      (fun k : nat =>
         (Throw (Errors.newNetworkError
                   (nth k ["first"; "second"; "third"; "fourth"] "later"))
          : Promise unit))
      3 1000 (fun _ : nat => 0%Q) = Some r
    /\ Retry.calls r = 3%nat
    /\ Retry.calls r <> 4%nat
    /\ Retry.outcome r = Throw (Errors.newNetworkError "third")
    /\ Retry.outcome r <> Throw (Errors.newNetworkError "fourth").
Proof.
  eexists. split; [reflexivity|]. cbn.
  repeat split; try discriminate.
Qed.

Lemma terminal_errors_are_not_retried_witness :
  1 <= 3
  /\ Retry.retryWithExponentialBackoff
       (fun _ : nat =>
          (Throw (Errors.newValidationError "Amount must be greater than 0"
                    (Some "amount")) : Promise unit))
       3 1000 (fun _ : nat => 0%Q)
     = Some {| Retry.outcome :=
                 Throw (Errors.newValidationError "Amount must be greater than 0"
                          (Some "amount"));
               Retry.calls := 1; Retry.sleeps := [] |}.
Proof.
  split; [lia|].
  apply (proj1 (@terminal_errors_are_not_retried unit
                  (fun _ : nat =>
                     Throw (Errors.newValidationError "Amount must be greater than 0"
                              (Some "amount")))
                  3 1000 (fun _ : nat => 0%Q) ltac:(lia)));
    reflexivity.
Defined.

(** ** The error taxonomy *)

Section TaxonomyFacts.
Import Errors.

Lemma class_eqb_eq c d : class_eqb c d = true <-> c = d.
Proof. split; [destruct c, d; (reflexivity || discriminate)|intros ->; now destruct d]. Qed.

Lemma variants_direct_subclasses c :
  In c variants <-> extends c = Some MpesaError.
Proof.
  unfold variants. rewrite filter_In. split.
  - intros [_ H]. destruct c; try discriminate; reflexivity.
  - intros H. split; [destruct c; cbn; tauto|]. now rewrite H.
Qed.

Lemma props_keys e : map fst (props e) = ownFields (classOf e).
Proof. now destruct e. Qed.

(** C8 (amended): the taxonomy is the closed set of six classes declared
    directly under [MpesaError], from which each inherits [name] and
    [message], and each carries exactly its listed members; the retry
    helper throws the error of one of its invocations whenever at least
    one attempt is allowed, and otherwise a plain [Error] of its own,
    which is outside the taxonomy. *)
Theorem taxonomy_closed_and_retry_pass_through :
  variants = [AuthenticationError; NetworkError; ValidationError;
              StkPushError; PayoutError; RegisterUrlError]
  /\ (forall c, In c variants <-> extends c = Some MpesaError)
  /\ (forall c, In c variants ->
        subclassOf c MpesaError = true /\ baseFields = ["name"; "message"])
  /\ NoDup (map name variants)
  /\ map (fun c => (name c, ownFields c)) variants
     = [("AuthenticationError", ["errorCode"]);
        ("NetworkError", []);
        ("ValidationError", ["field"]);
        ("StkPushError", ["responseCode"; "merchantRequestId"; "checkoutRequestId"]);
        ("PayoutError", ["errorCode"; "requestId"; "responseCode"; "conversationId"]);
        ("RegisterUrlError", ["responseCode"; "shortCode"])]
  /\ (forall e, map fst (props e) = ownFields (classOf e))
  /\ (forall (T : Type) (operation : nat -> Promise T) maxRetries baseDelay random r e,
        Retry.retryWithExponentialBackoff operation maxRetries baseDelay random = Some r ->
        Retry.outcome r = Throw e ->
        (1 <= maxRetries
         /\ exists k, (k < Retry.calls r)%nat /\ operation k = Throw e)
        \/ (maxRetries <= 0 /\ Retry.calls r = 0%nat
            /\ e = newError "Maximum retry attempts reached")).
Proof.
  split; [reflexivity|]. split; [exact variants_direct_subclasses|].
  split.
  { intros c Hc. apply variants_direct_subclasses in Hc.
    destruct c; try discriminate; split; reflexivity. }
  split.
  { cbn. repeat constructor; cbn; intuition discriminate. }
  split; [reflexivity|]. split; [exact props_keys|].
  intros T operation maxRetries baseDelay random r e. apply helper_throws.
Qed.

(** C8, as stated, fails: called with no attempt allowed the retry helper
    throws a plain [Error], which is no instance of [MpesaError]. *)
Lemma plain_error_escapes_retry :
  exists r e,
    Retry.retryWithExponentialBackoff
      (fun _ : nat => (Return tt : Promise unit)) 0 1000 (fun _ : nat => 0%Q)
    = Some r
    /\ Retry.outcome r = Throw e
    /\ classOf e = Error
    /\ instanceOf e MpesaError = false
    /\ ~ In (classOf e) variants.
Proof.
  eexists. eexists. split; [reflexivity|]. split; [reflexivity|].
  split; [reflexivity|]. split; [reflexivity|].
  rewrite variants_direct_subclasses. discriminate.
Qed.

End TaxonomyFacts.

(** ** The HTTPS check *)

Section UrlFacts.
Import Url.

Variable parse : string -> option URL.

(** C10: for every input the check returns a boolean and throws nothing;
    the boolean is [true] exactly when the input parses as a URL whose
    protocol is 'https:', and input that does not parse gives [false]. *)
Theorem isValidHttpsUrl_total_and_exact (urlString : string) :
  exists b,
    isValidHttpsUrl parse urlString = Return b
    /\ (b = true <->
        exists url, parse urlString = Some url /\ protocol url = "https:")
    /\ (parse urlString = None -> b = false).
Proof.
  unfold isValidHttpsUrl, newURL.
  destruct (parse urlString) as [url|] eqn:Hparse; cbn.
  - exists (String.eqb (protocol url) "https:"). split; [reflexivity|]. split.
    + rewrite String.eqb_eq. split.
      * intros H. now exists url.
      * intros (u & Hu & Hp). now inversion Hu; subst u.
    + discriminate.
  - exists false. split; [reflexivity|]. split; [|reflexivity].
    split; [discriminate|]. intros (u & Hu & _). discriminate.
Qed.

End UrlFacts.

(** ** Pre-flight validation *)

Section ValidationFacts.
Import Errors Validation.

(** On every double but NaN, [a <= 0] is the negation of [0 < a]. *)
Lemma leb_zero_not_nan (a : float) :
  is_nan a = false -> (a <=? 0)%float = negb (0 <? a)%float.
Proof.
  unfold is_nan. rewrite leb_spec, ltb_spec, eqb_spec.
  unfold SFleb, SFltb, SFeqb.
  replace (Prim2SF 0) with (S754_zero false) by reflexivity.
  destruct (Prim2SF a) as [s|s| |s m e]; try destruct s; cbn;
    intros H; try reflexivity; discriminate.
Qed.

(** NaN is neither below nor above zero. *)
Lemma nan_compares_false : (nan <=? 0)%float = false /\ (0 <? nan)%float = false.
Proof. split; reflexivity. Qed.

(** The four checks on strings are the negations of their rules. *)
Lemma length_check n m : (m <? n)%nat = negb (n <=? m)%nat.
Proof. apply Nat.ltb_antisym. Qed.

(** Away from NaN the function raises the error of the first violated
    rule, in the order amount, phone number, callback URL, reference,
    description, and returns exactly when the five rules hold. *)
Lemma validate_first_violated (d : PaymentDetails) :
  is_nan (amount d) = false ->
  thrownField (validatePaymentDetails d) = firstViolated d
  /\ (validatePaymentDetails d = Return tt <->
      forallb (fun r => snd r d) rules = true).
Proof.
  intros Hnan.
  unfold validatePaymentDetails, firstViolated, rules, amountRule, phoneRule,
    callbackRule, referenceRule, descriptionRule.
  rewrite (leb_zero_not_nan _ Hnan), !length_check. cbn [find forallb fst snd].
  generalize (0 <? amount d)%float, (test phonePattern (phoneNumber d)),
    (startsWith (callbackUrl d) "https://"),
    (String.length (reference d) <=? 12)%nat,
    (String.length (description d) <=? 13)%nat.
  intros [] [] [] [] []; cbn; split; try reflexivity;
    split; (reflexivity || discriminate).
Qed.

(** Whatever the amount, a run that returns has passed the four checks on
    strings and has an amount that is not at most zero. *)
Lemma validate_returns (d : PaymentDetails) :
  validatePaymentDetails d = Return tt <->
  ((amount d <=? 0)%float = false /\ phoneRule d = true /\ callbackRule d = true
   /\ referenceRule d = true /\ descriptionRule d = true).
Proof.
  unfold validatePaymentDetails, phoneRule, callbackRule, referenceRule,
    descriptionRule.
  rewrite !length_check.
  generalize (amount d <=? 0)%float, (test phonePattern (phoneNumber d)),
    (startsWith (callbackUrl d) "https://"),
    (String.length (reference d) <=? 12)%nat,
    (String.length (description d) <=? 13)%nat.
  intros [] [] [] [] []; cbn; split; intuition (reflexivity || discriminate).
Qed.

(** The phone pattern accepts exactly twelve characters. *)
Lemma phone_pattern_length s : test phonePattern s = true -> String.length s = 12%nat.
Proof.
  unfold phonePattern. cbn [repeat app].
  do 12 (destruct s as [|? s]; [discriminate|]; cbn [test];
         rewrite andb_true_iff; intros [_ H]; revert H).
  destruct s; [reflexivity|discriminate].
Qed.

(** C9: the amount rule is "amount > 0", yet a payment whose amount is NaN
    and whose other four members are valid passes the validation: the
    check [amount <= 0] is false on NaN although the rule is violated. *)
Theorem nan_amount_passes_validation :
  validatePaymentDetails
    {| amount := nan; phoneNumber := "251712345678";
       callbackUrl := "https://example.com/callback";
       reference := "INV-001"; description := "Order 17" |}
  = Return tt
  /\ amountRule
       {| amount := nan; phoneNumber := "251712345678";
          callbackUrl := "https://example.com/callback";
          reference := "INV-001"; description := "Order 17" |}
     = false
  /\ firstViolated
       {| amount := nan; phoneNumber := "251712345678";
          callbackUrl := "https://example.com/callback";
          reference := "INV-001"; description := "Order 17" |}
     = Some "amount".
Proof. repeat split. Qed.

Example phone_pattern_examples :
  test phonePattern "251712345678" = true
  /\ test phonePattern "251612345678" = false
  /\ test phonePattern "2517123456789" = false
  /\ test phonePattern "25171234567" = false
  /\ test phonePattern "25171234567a" = false.
Proof. repeat split. Qed.

Example validate_accepts_valid_payment :
  validatePaymentDetails
    {| amount := 150%float; phoneNumber := "251912345678";
       callbackUrl := "https://example.com/callback";
       reference := "123456789012"; description := "1234567890123" |}
  = Return tt.
Proof. reflexivity. Qed.

Example validate_rejects_zero_amount_first :
  validatePaymentDetails
    {| amount := 0%float; phoneNumber := "0712"; callbackUrl := "http://x";
       reference := "r"; description := "d" |}
  = Throw (newValidationError "Amount must be greater than 0" (Some "amount")).
Proof. reflexivity. Qed.

Example validate_rejects_short_phone :
  thrownField
    (validatePaymentDetails
       {| amount := 10%float; phoneNumber := "25171234567";
          callbackUrl := "http://x"; reference := "r"; description := "d" |})
  = Some "phoneNumber".
Proof. reflexivity. Qed.

End ValidationFacts.

(** ** The token manager *)

Section TokenFacts.
Import Errors Token.

(** A record written at [now] lapses [expiresIn] seconds after [now]. *)
Lemma expiry_install now g : expiry (install now g) = now + expiresIn g * 1000.
Proof. unfold expiry, install, BUFFER. cbn. lia. Qed.

(** The cached token is reused exactly while the clock is more than the
    buffer ahead of the lapse. *)
Lemma getToken_enter_cached tokenData now :
  getToken_enter now (Some tokenData)
  = if now <? expiry tokenData - BUFFER then Finished (token tokenData) else Awaiting.
Proof.
  unfold getToken_enter, expiry, BUFFER.
  destruct (Z.geb_spec now (expiresAt tokenData)), (Z.ltb_spec now (expiresAt tokenData + 60000 - 60000));
    (reflexivity || lia).
Qed.

(** C4: while a token is cached and the clock is strictly before its lapse
    less the margin of 60 seconds, [getToken] returns the cached value,
    calls no exchange and leaves the manager as it was; once the remaining
    validity is at most the margin, as for a token lapsing in 30 seconds, it
    calls the exchange exactly once. *)
Theorem cached_token_reused_until_margin
    (this : TokenManager) (tokenData : TokenData) (now later : Z)
    (response : Promise Generated) :
  this = Some tokenData ->
  60 * 1000 <= BUFFER
  /\ (now < expiry tokenData - BUFFER ->
      getToken now later response this
      = {| result := Return (token tokenData); manager := this; exchanges := 0 |})
  /\ (expiry tokenData - now <= BUFFER ->
      exchanges (getToken now later response this) = 1%nat)
  /\ (expiry tokenData = now + 30 * 1000 ->
      exchanges (getToken now later response this) = 1%nat).
Proof.
  intros ->. unfold getToken. rewrite getToken_enter_cached.
  split; [unfold BUFFER; lia|].
  destruct (Z.ltb_spec now (expiry tokenData - BUFFER)) as [Hlt|Hge].
  - split; [reflexivity|]. unfold BUFFER in *. split; intros; lia.
  - split; [intros; lia|]. split; reflexivity.
Qed.



End TokenFacts.

Lemma cached_token_reused_until_margin_witness :
  Some {| Token.token := "abc"; Token.expiresAt := 3540000 |}
  = Some {| Token.token := "abc"; Token.expiresAt := 3540000 |}
  /\ Token.getToken 1000 1200
       (Return {| Token.generated := "xyz"; Token.tokenType := "Bearer";
                  Token.expiresIn := 3600 |})
       (Some {| Token.token := "abc"; Token.expiresAt := 3540000 |})
     = {| Token.result := Return "abc";
          Token.manager := Some {| Token.token := "abc"; Token.expiresAt := 3540000 |};
          Token.exchanges := 0 |}.
Proof.
  split; [reflexivity|].
  apply (proj1 (proj2 (@cached_token_reused_until_margin
                         (Some {| Token.token := "abc"; Token.expiresAt := 3540000 |})
                         {| Token.token := "abc"; Token.expiresAt := 3540000 |}
                         1000 1200
                         (Return {| Token.generated := "xyz";
                                    Token.tokenType := "Bearer";
                                    Token.expiresIn := 3600 |})
                         eq_refl))).
  reflexivity.
Defined.

(** A token lapsing in 30 seconds is stored as already past its refresh
    instant, so the next call exchanges once and replaces it. *)
Example token_lapsing_in_30s_is_refreshed :
  Token.getToken 100000 100200
    (Return {| Token.generated := "new"; Token.tokenType := "Bearer";
               Token.expiresIn := 3600 |})
    (Some {| Token.token := "old"; Token.expiresAt := 100000 + 30000 - 60000 |})
  = {| Token.result := Return "new";
       Token.manager := Some {| Token.token := "new"; Token.expiresAt := 3640200 |};
       Token.exchanges := 1 |}.
Proof. reflexivity. Qed.



(** *** Several callers on one token manager *)

Section ConcurrentTokenFacts.
Import Errors Token.

Lemma invoke_while_stale w caller now :
  getToken_enter now (shared w) = Awaiting ->
  step w (Invoke caller now)
  = {| shared := shared w; issued := S (issued w);
       waiting := waiting w ++ [caller]; delivered := delivered w |}.
Proof. intros H. cbn. now rewrite H. Qed.

(** Callers arriving while no valid token is cached all go to the
    exchange: nothing in [getToken] records that one is under way. *)
Lemma run_invokeAll n : forall w from now,
  getToken_enter now (shared w) = Awaiting ->
  run w (invokeAll from n now)
  = {| shared := shared w; issued := issued w + n;
       waiting := waiting w ++ seq from n; delivered := delivered w |}.
Proof.
  induction n as [|n IH]; intros w from now Hstale.
  - cbn. rewrite Nat.add_0_r, app_nil_r. now destruct w.
  - unfold run, invokeAll in *. cbn [seq map fold_left].
    rewrite invoke_while_stale by exact Hstale.
    rewrite IH by exact Hstale. cbn [shared issued waiting delivered].
    rewrite <- app_assoc. cbn [app]. f_equal. lia.
Qed.

(** C6 (amended): [getToken] does not deduplicate exchanges; of [n] calls
    arriving while no valid token is cached and before any exchange has
    settled, each one issues its own exchange, [n] in all, and each caller
    receives the token of its own exchange. *)
Theorem every_concurrent_caller_issues_an_exchange
    (w : World) (from n : nat) (now : Z) :
  getToken_enter now (shared w) = Awaiting ->
  issued (run w (invokeAll from n now)) = (issued w + n)%nat
  /\ waiting (run w (invokeAll from n now)) = waiting w ++ seq from n
  /\ shared (run w (invokeAll from n now)) = shared w
  /\ (forall caller later g,
        In caller (seq from n) ->
        delivered (step (run w (invokeAll from n now))
                     (Settle caller later (Return g)))
        = delivered w ++ [(caller, Return (generated g))]).
Proof.
  intros Hstale. rewrite run_invokeAll by exact Hstale. cbn [issued waiting shared].
  repeat split. intros caller later g Hin. cbn [step waiting].
  assert (Hw : existsb (Nat.eqb caller) (waiting w ++ seq from n) = true).
  { apply existsb_exists. exists caller. split.
    - apply in_or_app. now right.
    - apply Nat.eqb_refl. }
  rewrite Hw. reflexivity.
Qed.

End ConcurrentTokenFacts.

Lemma every_concurrent_caller_issues_an_exchange_witness :
  Token.getToken_enter 0 (Token.shared (Token.start Token.fresh)) = Token.Awaiting
  /\ Token.issued (Token.run (Token.start Token.fresh) (Token.invokeAll 0 10 0))
     = (0 + 10)%nat.
Proof.
  split; [reflexivity|].
  apply (proj1 (@every_concurrent_caller_issues_an_exchange
                  (Token.start Token.fresh) 0 10 0 eq_refl)).
Defined.

(** C6, as stated, fails: ten calls arriving together on a manager with
    nothing cached issue ten exchanges, and the callers receive the tokens
    of their own exchanges, which need not be the same. *)
Lemma ten_callers_ten_exchanges :
  exists w,
    Token.run (Token.start Token.fresh)
      (Token.invokeAll 0 10 0
       ++ [Token.Settle 0 50
             (Return {| Token.generated := "first"; Token.tokenType := "Bearer";
                        Token.expiresIn := 3600 |});
           Token.Settle 1 60
             (Return {| Token.generated := "second"; Token.tokenType := "Bearer";
                        Token.expiresIn := 3600 |})]) = w
    /\ Token.issued w = 10%nat
    /\ Token.issued w <> 1%nat
    /\ Token.received w 0 = Some (Return "first")
    /\ Token.received w 1 = Some (Return "second")
    /\ Token.received w 0 <> Token.received w 1.
Proof.
  eexists. split; [reflexivity|]. cbn.
  repeat split; try discriminate.
Qed.

(** ** The rate limiter of the specification *)

Section LimiterFacts.
Import Limiter.

Variables (duration : Z) (ceiling budget : nat).








End LimiterFacts.


(** Two slots and a budget of three per minute: the third caller waits for
    a release, the fourth admission of the minute waits for the boundary,
    and the first acquisition at the boundary restarts the count. *)
Example limiter_run :
  map (fun q => (Limiter.windowStart q, Limiter.activeCount q,
                 Limiter.admittedInWindow q))
    (Limiter.observed (Limiter.create 0 Limiter.MPESAJS_TIME_WINDOW_MS 2 3)
       [Limiter.Acquire 10; Limiter.Acquire 20; Limiter.Acquire 30;
        Limiter.Release; Limiter.Acquire 40; Limiter.Release;
        Limiter.Acquire 59999; Limiter.Acquire 60000])
  = [(0, 0%nat, 0%nat); (0, 1%nat, 1%nat); (0, 2%nat, 2%nat);
     (0, 2%nat, 2%nat); (0, 1%nat, 2%nat); (0, 2%nat, 3%nat);
     (0, 1%nat, 3%nat); (0, 1%nat, 3%nat); (60000, 2%nat, 1%nat)].
Proof. reflexivity. Qed.

(** ** Further properties of the retry helper *)

Section RetryRuns.
Import Errors Retry.

Variable T : Type.
Variable operation : nat -> Promise T.
Variable maxRetries : Z.
Variable baseDelay : Z.
Variable random : nat -> Q.

(** A run is decided by the first invocation that returns, fails with an
    error the helper does not retry, or is the [maxRetries]-th. *)
Lemma helper_decided_at (n : nat) :
  Z.of_nat (S n) <= maxRetries ->
  (forall k, (k < n)%nat -> failsRetryably operation k) ->
  ((exists v, operation n = Return v)
   \/ (exists error, operation n = Throw error
       /\ (Z.of_nat (S n) = maxRetries \/ isRetryable error = false))) ->
  retryWithExponentialBackoff operation maxRetries baseDelay random
  = Some {| outcome := operation n; calls := S n;
            sleeps := sleepsOf baseDelay random n |}.
Proof.
  intros Hn Hprev Hdecisive.
  destruct (helper_total operation maxRetries baseDelay random) as [r Hr].
  rewrite Hr. f_equal.
  destruct (helper_ends operation baseDelay random (maxRetries := maxRetries)
              ltac:(lia) Hr) as (m & Hc & Hm & Ho & Hs & Hbefore & Hstop).
  assert (Hmn : m = n).
  { destruct (Nat.lt_trichotomy m n) as [Hlt|[Heq|Hgt]]; [|exact Heq|].
    - destruct (Hprev m Hlt) as (e & He & Hre).
      destruct Hstop as [[v Hv]|(e' & He' & [Hlast|Hno])]; [congruence|lia|congruence].
    - destruct (Hbefore n Hgt) as (e & He & Hre).
      destruct Hdecisive as [[v Hv]|(e' & He' & [Hlast|Hno])]; [congruence|lia|congruence]. }
  subst m. destruct r as [o c s]; cbn in *. now subst.
Qed.

(** X1: when the first [n] invocations fail with errors the helper
    retries and the next one returns, with [n + 1] attempts allowed, the
    helper returns that value after [n + 1] invocations and the [n]
    timeouts of the doubling schedule. *)
Theorem retry_returns_first_success (n : nat) (v : T) :
  Z.of_nat (S n) <= maxRetries ->
  (forall k, (k < n)%nat -> failsRetryably operation k) ->
  operation n = Return v ->
  retryWithExponentialBackoff operation maxRetries baseDelay random
  = Some {| outcome := Return v; calls := S n;
            sleeps := sleepsOf baseDelay random n |}.
Proof.
  intros Hn Hprev Hv. rewrite <- Hv. apply helper_decided_at; eauto.
Qed.

(** X2: an error the helper does not retry ends the run wherever it
    occurs: after [n] retried failures it is rethrown as it is, with no
    further invocation and no timeout after it. *)
Theorem retry_rethrows_first_terminal_error (n : nat) (error : Thrown) :
  Z.of_nat (S n) <= maxRetries ->
  (forall k, (k < n)%nat -> failsRetryably operation k) ->
  operation n = Throw error ->
  isRetryable error = false ->
  retryWithExponentialBackoff operation maxRetries baseDelay random
  = Some {| outcome := Throw error; calls := S n;
            sleeps := sleepsOf baseDelay random n |}.
Proof.
  intros Hn Hprev He Hno. rewrite <- He. apply helper_decided_at; eauto.
Qed.

(** X3: with [maxRetries] zero or negative the operation is not invoked
    at all, even one that would succeed, and the helper rejects with its
    own [Error]. *)
Theorem retry_without_attempts_never_invokes :
  maxRetries <= 0 ->
  exists r,
    retryWithExponentialBackoff operation maxRetries baseDelay random = Some r
    /\ calls r = 0%nat /\ sleeps r = []
    /\ outcome r = Throw (newError "Maximum retry attempts reached")
    /\ forall v, outcome r <> Return v.
Proof.
  intros Hle. eexists. split; [now apply helper_no_attempt|].
  cbn. repeat split. discriminate.
Qed.

End RetryRuns.

Lemma retry_returns_first_success_witness :
  Retry.retryWithExponentialBackoff
    (fun k : nat =>
       match k with
       | 0%nat => Throw (Errors.newNetworkError "timeout")
       | 1%nat => Throw (Errors.newStkPushError "busy" (Some "17") None None)
       | _ => (Return "paid" : Promise string)
       end)
    3 1000 (fun _ : nat => 0%Q)
  = Some {| Retry.outcome := Return "paid"; Retry.calls := 3;
            Retry.sleeps := Retry.sleepsOf 1000 (fun _ : nat => 0%Q) 2 |}.
Proof.
  apply (@retry_returns_first_success string
           (fun k : nat =>
              match k with
              | 0%nat => Throw (Errors.newNetworkError "timeout")
              | 1%nat => Throw (Errors.newStkPushError "busy" (Some "17") None None)
              | _ => Return "paid"
              end)
           3 1000 (fun _ : nat => 0%Q) 2 "paid").
  - cbn. lia.
  - intros k Hk. destruct k as [|[|k]]; [| |lia]; eexists; split; reflexivity.
  - reflexivity.
Defined.

Lemma retry_rethrows_first_terminal_error_witness :
  Retry.retryWithExponentialBackoff
    (fun k : nat =>
       match k with
       | 0%nat => Throw (Errors.newNetworkError "timeout")
       | _ => (Throw (Errors.newAuthenticationError "expired" (Some "401.001.1"))
               : Promise string)
       end)
    5 1000 (fun _ : nat => 0%Q)
  = Some {| Retry.outcome :=
              Throw (Errors.newAuthenticationError "expired" (Some "401.001.1"));
            Retry.calls := 2;
            Retry.sleeps := Retry.sleepsOf 1000 (fun _ : nat => 0%Q) 1 |}.
Proof.
  apply (@retry_rethrows_first_terminal_error string
           (fun k : nat =>
              match k with
              | 0%nat => Throw (Errors.newNetworkError "timeout")
              | _ => Throw (Errors.newAuthenticationError "expired" (Some "401.001.1"))
              end)
           5 1000 (fun _ : nat => 0%Q) 1
           (Errors.newAuthenticationError "expired" (Some "401.001.1"))).
  - cbn. lia.
  - intros k Hk. destruct k as [|k]; [|lia]. eexists; split; reflexivity.
  - reflexivity.
  - reflexivity.
Defined.

Lemma retry_without_attempts_never_invokes_witness :
  0 <= 0
  /\ exists r,
      Retry.retryWithExponentialBackoff
        (fun _ : nat => (Return "paid" : Promise string)) 0 1000 (fun _ : nat => 0%Q)
      = Some r
      /\ Retry.calls r = 0%nat.
Proof.
  split; [lia|].
  destruct (@retry_without_attempts_never_invokes string
              (fun _ : nat => Return "paid") 0 1000 (fun _ : nat => 0%Q) ltac:(lia))
    as (r & Hr & Hc & _).
  exists r. split; [exact Hr|exact Hc].
Defined.

Section RetryWaiting.
Import Errors Retry Waiting.

Variable T : Type.
Variable operation : nat -> Promise T.
Variable maxRetries : Z.
Variable baseDelay : Z.
Variable random : nat -> Q.






End RetryWaiting.


(** ** Token retrieval with retries *)

Section AuthRetryFacts.
Import Errors AuthRetry.

Variable generateToken : nat -> Promise Token.Generated.

(** After [n] network failures that the remaining retries cover, the next
    call decides when it returns, fails otherwise than by the network, or
    finds no retry left. *)
Lemma getAuthToken_from_decided (n : nat) : forall fuel retries done slept,
  (n < fuel)%nat ->
  Z.of_nat n <= Z.max 0 retries ->
  (forall i, (i < n)%nat ->
     exists error, generateToken (done + i) = Throw error
                   /\ instanceOf error NetworkError = true) ->
  ((exists g, generateToken (done + n) = Return g)
   \/ (exists error, generateToken (done + n) = Throw error
       /\ (instanceOf error NetworkError = false \/ retries <= Z.of_nat n))) ->
  getAuthToken_from generateToken fuel retries done slept
  = Some {| outcome := match generateToken (done + n) with
                       | Return g => Return (Token.generated g)
                       | Throw error => Throw error
                       end;
            calls := S (done + n);
            sleeps := slept ++ repeat 1000 n |}.
Proof.
  induction n as [|n IH]; intros fuel retries done slept Hfuel Hcover Hdown Hdec;
    (destruct fuel as [|fuel]; [lia|]); cbn [getAuthToken_from].
  - rewrite Nat.add_0_r in *. cbn [repeat]. rewrite app_nil_r.
    destruct Hdec as [[g Hg]|(e & He & Hwhy)].
    + now rewrite Hg.
    + rewrite He. destruct Hwhy as [Hno|Hout].
      * now rewrite Hno.
      * destruct (Z.gtb_spec retries 0) as [Hgt|_]; [cbn in Hout; lia|].
        now rewrite andb_false_r.
  - destruct (Hdown 0%nat ltac:(lia)) as (e & He & Hnet).
    rewrite Nat.add_0_r in He. rewrite He, Hnet.
    destruct (Z.gtb_spec retries 0) as [Hgt|Hle]; [|lia]. cbn [andb].
    rewrite (IH fuel (retries - 1) (S done) (slept ++ [1000])).
    + replace (S done + n)%nat with (done + S n)%nat by lia.
      rewrite <- app_assoc. reflexivity.
    + lia.
    + lia.
    + intros i Hi. replace (S done + i)%nat with (done + S i)%nat by lia.
      apply Hdown. lia.
    + replace (S done + n)%nat with (done + S n)%nat by lia.
      destruct Hdec as [Hg|(e' & He' & [Hno|Hout])]; [now left|right..];
        exists e'; (split; [exact He'|]); [now left|right; lia].
Qed.

(** X5: [getAuthToken(retries)] makes up to [retries] retries after its
    first call: while the network stays down through all [retries + 1]
    calls it makes exactly that many, sleeping 1000 ms before each retry,
    and rejects with the error of the last call. *)
Theorem getAuthToken_exhausts_retries (retries : Z) :
  0 <= retries ->
  (forall k, (k <= Z.to_nat retries)%nat ->
     exists error, generateToken k = Throw error
                   /\ instanceOf error NetworkError = true) ->
  exists error,
    generateToken (Z.to_nat retries) = Throw error
    /\ getAuthToken generateToken retries
       = Some {| outcome := Throw error; calls := S (Z.to_nat retries);
                 sleeps := repeat 1000 (Z.to_nat retries) |}.
Proof.
  intros Hpos Hdown.
  destruct (Hdown (Z.to_nat retries) ltac:(lia)) as (e & He & Hnet).
  exists e. split; [exact He|]. unfold getAuthToken.
  rewrite (@getAuthToken_from_decided (Z.to_nat retries)); cbn [Nat.add app].
  - now rewrite He.
  - lia.
  - lia.
  - intros i Hi. cbn. apply Hdown. lia.
  - right. exists e. split; [exact He|]. right. lia.
Qed.

(** X6: the first call that returns, or that fails otherwise than by the
    network, decides at once: [getAuthToken] then returns the token of
    that call, or rethrows its error, having slept 1000 ms before each
    of the retries made so far. *)
Theorem getAuthToken_decided_by_first_non_network_result (retries : Z) (n : nat) :
  Z.of_nat n <= Z.max 0 retries ->
  (forall k, (k < n)%nat ->
     exists error, generateToken k = Throw error
                   /\ instanceOf error NetworkError = true) ->
  (forall g, generateToken n = Return g ->
     getAuthToken generateToken retries
     = Some {| outcome := Return (Token.generated g); calls := S n;
               sleeps := repeat 1000 n |})
  /\ (forall error, generateToken n = Throw error ->
        instanceOf error NetworkError = false ->
        getAuthToken generateToken retries
        = Some {| outcome := Throw error; calls := S n; sleeps := repeat 1000 n |}).
Proof.
  intros Hcover Hdown. split.
  - intros g Hg. unfold getAuthToken.
    rewrite (@getAuthToken_from_decided n); cbn [Nat.add app];
      [now rewrite Hg|lia|lia|exact Hdown|left; now exists g].
  - intros e He Hno. unfold getAuthToken.
    rewrite (@getAuthToken_from_decided n); cbn [Nat.add app];
      [now rewrite He|lia|lia|exact Hdown|right; exists e; split; [exact He|now left]].
Qed.

End AuthRetryFacts.

Lemma getAuthToken_exhausts_retries_witness :
  0 <= AuthRetry.defaultRetries
  /\ exists error,
      AuthRetry.getAuthToken (fun _ : nat => Throw (Errors.newNetworkError "down"))
        AuthRetry.defaultRetries
      = Some {| AuthRetry.outcome := Throw error; AuthRetry.calls := 4;
                AuthRetry.sleeps := [1000; 1000; 1000] |}.
Proof.
  split; [unfold AuthRetry.defaultRetries; lia|].
  destruct (@getAuthToken_exhausts_retries
              (fun _ : nat => Throw (Errors.newNetworkError "down"))
              AuthRetry.defaultRetries
              ltac:(unfold AuthRetry.defaultRetries; lia)
              ltac:(intros k _; eexists; split; reflexivity))
    as (e & _ & Hrun).
  exists e. exact Hrun.
Defined.

Lemma getAuthToken_decided_by_first_non_network_result_witness :
  Z.of_nat 1 <= Z.max 0 3
  /\ AuthRetry.getAuthToken
       (fun k : nat =>
          match k with
          | 0%nat => Throw (Errors.newNetworkError "down")
          | _ => Return {| Token.generated := "abc"; Token.tokenType := "Bearer";
                           Token.expiresIn := 3600 |}
          end) 3
     = Some {| AuthRetry.outcome := Return "abc"; AuthRetry.calls := 2;
               AuthRetry.sleeps := [1000] |}.
Proof.
  split; [cbn; lia|].
  apply (proj1 (@getAuthToken_decided_by_first_non_network_result
                  (fun k : nat =>
                     match k with
                     | 0%nat => Throw (Errors.newNetworkError "down")
                     | _ => Return {| Token.generated := "abc";
                                      Token.tokenType := "Bearer";
                                      Token.expiresIn := 3600 |}
                     end) 3 1
                  ltac:(cbn; lia)
                  ltac:(intros k Hk; destruct k; [eexists; split; reflexivity|lia]))
          {| Token.generated := "abc"; Token.tokenType := "Bearer";
             Token.expiresIn := 3600 |}
          eq_refl).
Defined.

(** ** Retry with linear backoff *)

Section LinearRetryFacts.
Import Errors LinearRetry.

Variable T : Type.
Variable operation : nat -> Promise T.
Variable maxRetries : Z.

Lemma linear_sleeps_from attempt n :
  map (fun i => (attempt + Z.of_nat i) * 1000) (seq 0 (S n))
  = attempt * 1000 :: map (fun i => (attempt + 1 + Z.of_nat i) * 1000) (seq 0 n).
Proof.
  cbn [seq map]. f_equal; [f_equal; lia|].
  rewrite <- seq_shift, map_map. apply map_ext. intros i. f_equal. lia.
Qed.

Lemma linearSleeps_from_one n :
  map (fun i => (1 + Z.of_nat i) * 1000) (seq 0 n) = linearSleeps n.
Proof.
  unfold linearSleeps. rewrite <- seq_shift, map_map.
  apply map_ext. intros i. f_equal. lia.
Qed.

(** While the network stays down the loop runs through all the attempts
    that are left and ends with [throw lastError]. *)
Lemma retry_loop_network_down (err : nat -> Thrown) (m : nat) :
  forall (fuel : nat) (attempt : Z) (lastError : option Thrown) (done : nat)
         (slept : list Z),
  (m < fuel)%nat ->
  Z.of_nat m = Z.max 0 (maxRetries - attempt + 1) ->
  (forall i, (i < m)%nat ->
     operation (done + i)%nat = Throw (err (done + i)%nat)
     /\ instanceOf (err (done + i)%nat) NetworkError = true) ->
  retry_loop operation maxRetries fuel attempt lastError done slept
  = Some {| outcome := Throw (match m with
                              | O => lastError
                              | S m' => Some (err (done + m')%nat)
                              end);
            calls := (done + m)%nat;
            sleeps := slept ++ map (fun i => (attempt + Z.of_nat i) * 1000) (seq 0 m) |}.
Proof.
  induction m as [|m IH]; intros fuel attempt lastError done slept Hfuel Hleft Hdown;
    (destruct fuel as [|fuel]; [lia|]); cbn [retry_loop].
  - destruct (Z.leb_spec attempt maxRetries) as [Hle|Hgt]; [lia|].
    cbn. now rewrite Nat.add_0_r, app_nil_r.
  - destruct (Z.leb_spec attempt maxRetries) as [Hle|Hgt]; [|lia].
    destruct (Hdown 0%nat ltac:(lia)) as [He Hnet].
    rewrite Nat.add_0_r in He, Hnet. rewrite He, Hnet.
    rewrite (IH fuel (attempt + 1) (Some (err done)) (S done)
               (slept ++ [attempt * 1000])).
    + rewrite linear_sleeps_from, <- app_assoc. cbn [app].
      f_equal. f_equal; try lia.
      destruct m as [|m]; [now rewrite Nat.add_0_r|].
      replace (done + S m)%nat with (S done + m)%nat by lia. reflexivity.
    + lia.
    + lia.
    + intros i Hi. replace (S done + i)%nat with (done + S i)%nat by lia.
      apply Hdown. lia.
Qed.

(** After [n] network failures an attempt that returns, or fails
    otherwise than by the network, decides. *)
Lemma retry_loop_decided (n : nat) :
  forall (fuel : nat) (attempt : Z) (lastError : option Thrown) (done : nat)
         (slept : list Z),
  (n < fuel)%nat ->
  attempt + Z.of_nat n <= maxRetries ->
  (forall i, (i < n)%nat ->
     exists error, operation (done + i)%nat = Throw error
                   /\ instanceOf error NetworkError = true) ->
  ((exists v, operation (done + n)%nat = Return v)
   \/ (exists error, operation (done + n)%nat = Throw error
       /\ instanceOf error NetworkError = false)) ->
  retry_loop operation maxRetries fuel attempt lastError done slept
  = Some {| outcome := match operation (done + n)%nat with
                       | Return v => Return v
                       | Throw error => Throw (Some error)
                       end;
            calls := S (done + n)%nat;
            sleeps := slept ++ map (fun i => (attempt + Z.of_nat i) * 1000) (seq 0 n) |}.
Proof.
  induction n as [|n IH]; intros fuel attempt lastError done slept Hfuel Hle Hdown Hdec;
    (destruct fuel as [|fuel]; [lia|]); cbn [retry_loop];
    (destruct (Z.leb_spec attempt maxRetries) as [_|Hgt]; [|lia]).
  - rewrite Nat.add_0_r in *. cbn [seq map]. rewrite app_nil_r.
    destruct Hdec as [[v Hv]|(e & He & Hno)].
    + now rewrite Hv.
    + now rewrite He, Hno.
  - destruct (Hdown 0%nat ltac:(lia)) as (e & He & Hnet).
    rewrite Nat.add_0_r in He. rewrite He, Hnet.
    rewrite (IH fuel (attempt + 1) (Some e) (S done) (slept ++ [attempt * 1000])).
    + rewrite linear_sleeps_from, <- app_assoc. cbn [app].
      replace (S done + n)%nat with (done + S n)%nat by lia. reflexivity.
    + lia.
    + lia.
    + intros i Hi. replace (S done + i)%nat with (done + S i)%nat by lia.
      apply Hdown. lia.
    + replace (S done + n)%nat with (done + S n)%nat by lia. exact Hdec.
Qed.

(** X7: while the network stays down, the linear-backoff wrapper makes
    exactly [maxRetries] calls, sleeps [k * 1000] ms after the [k]-th of
    them, the last one included, and then rejects with the error of the
    last call. *)
Theorem linear_retry_exhausts_attempts (err : nat -> Thrown) (n : nat) :
  maxRetries = Z.of_nat (S n) ->
  (forall k, (k <= n)%nat ->
     operation k = Throw (err k) /\ instanceOf (err k) NetworkError = true) ->
  withRetry operation maxRetries
  = Some {| outcome := Throw (Some (err n)); calls := S n;
            sleeps := linearSleeps (S n) |}.
Proof.
  intros Hmax Hdown. unfold withRetry.
  rewrite (@retry_loop_network_down err (S n)); cbn [Nat.add app].
  - now rewrite linearSleeps_from_one.
  - lia.
  - lia.
  - intros i Hi. apply Hdown. lia.
Qed.

(** X8: with [maxRetries] zero or negative the wrapper makes no call and
    rejects with [null], the initial value of [lastError]. *)
Theorem linear_retry_without_attempts_throws_null :
  maxRetries <= 0 ->
  withRetry operation maxRetries
  = Some {| outcome := Throw None; calls := 0; sleeps := [] |}.
Proof.
  intros Hle. unfold withRetry.
  rewrite (@retry_loop_network_down (fun _ => newError "") 0); cbn [Nat.add app];
    [reflexivity|lia|lia|intros i Hi; lia].
Qed.

(** X9: after [n] network failures, with an attempt left, a call that
    returns gives the result of the wrapper and a call that fails
    otherwise than by the network is rethrown at once; the timeouts slept
    are 1000, 2000, ..., [n * 1000] ms. *)
Theorem linear_retry_decided_by_first_non_network_result (n : nat) :
  Z.of_nat (S n) <= maxRetries ->
  (forall k, (k < n)%nat ->
     exists error, operation k = Throw error
                   /\ instanceOf error NetworkError = true) ->
  (forall v, operation n = Return v ->
     withRetry operation maxRetries
     = Some {| outcome := Return v; calls := S n; sleeps := linearSleeps n |})
  /\ (forall error, operation n = Throw error ->
        instanceOf error NetworkError = false ->
        withRetry operation maxRetries
        = Some {| outcome := Throw (Some error); calls := S n;
                  sleeps := linearSleeps n |}).
Proof.
  intros Hle Hdown. split.
  - intros v Hv. unfold withRetry.
    rewrite (@retry_loop_decided n); cbn [Nat.add app];
      [now rewrite Hv, linearSleeps_from_one|lia|lia|exact Hdown|left; now exists v].
  - intros e He Hno. unfold withRetry.
    rewrite (@retry_loop_decided n); cbn [Nat.add app];
      [now rewrite He, linearSleeps_from_one|lia|lia|exact Hdown
      |right; exists e; now split].
Qed.

End LinearRetryFacts.

Lemma linear_retry_exhausts_attempts_witness :
  LinearRetry.defaultMaxRetries = Z.of_nat 3
  /\ LinearRetry.withRetry
       (fun _ : nat => (Throw (Errors.newNetworkError "down") : Promise unit))
       LinearRetry.defaultMaxRetries
     = Some {| LinearRetry.outcome := Throw (Some (Errors.newNetworkError "down"));
               LinearRetry.calls := 3;
               LinearRetry.sleeps := [1000; 2000; 3000] |}.
Proof.
  split; [reflexivity|].
  exact (@linear_retry_exhausts_attempts unit
           (fun _ : nat => Throw (Errors.newNetworkError "down"))
           LinearRetry.defaultMaxRetries
           (fun _ : nat => Errors.newNetworkError "down") 2
           eq_refl (fun k _ => conj eq_refl eq_refl)).
Defined.

Lemma linear_retry_without_attempts_throws_null_witness :
  0 <= 0
  /\ LinearRetry.withRetry (fun _ : nat => (Return tt : Promise unit)) 0
     = Some {| LinearRetry.outcome := Throw None; LinearRetry.calls := 0;
               LinearRetry.sleeps := [] |}.
Proof.
  split; [lia|].
  exact (@linear_retry_without_attempts_throws_null unit
           (fun _ : nat => Return tt) 0 ltac:(lia)).
Defined.

Lemma linear_retry_decided_by_first_non_network_result_witness :
  Z.of_nat 2 <= 3
  /\ LinearRetry.withRetry
       (fun k : nat =>
          match k with
          | 0%nat => Throw (Errors.newNetworkError "down")
          | _ => (Throw (Errors.newRegisterUrlError "rejected" (Some "E001") None)
                  : Promise unit)
          end) 3
     = Some {| LinearRetry.outcome :=
                 Throw (Some (Errors.newRegisterUrlError "rejected" (Some "E001") None));
               LinearRetry.calls := 2; LinearRetry.sleeps := [1000] |}.
Proof.
  split; [cbn; lia|].
  exact (proj2 (@linear_retry_decided_by_first_non_network_result unit
                  (fun k : nat =>
                     match k with
                     | 0%nat => Throw (Errors.newNetworkError "down")
                     | _ => Throw (Errors.newRegisterUrlError "rejected" (Some "E001") None)
                     end) 3 1
                  ltac:(cbn; lia)
                  ltac:(intros k Hk; destruct k; [eexists; split; reflexivity|lia]))
          (Errors.newRegisterUrlError "rejected" (Some "E001") None)
          eq_refl eq_refl).
Defined.

(** ** URL validation and registration *)

Section RegistrationFacts.
Import Errors Url Registration.

Lemma prefix_iff (sub s : string) :
  String.prefix sub s = true <-> exists post, s = (sub ++ post)%string.
Proof.
  revert s. induction sub as [|c sub IH]; intros s.
  - split; [intros _; now exists s|intros _; now destruct s].
  - destruct s as [|d s]; cbn;
      [split; [discriminate|intros [post H]; discriminate]|].
    destruct (Ascii.ascii_dec c d) as [->|Hne].
    + rewrite IH. split; intros [post H]; exists post; [now subst|now inversion H].
    + split; [discriminate|intros [post H]; inversion H; congruence].
Qed.

(** [includes] finds its argument exactly where it occurs as a
    substring. *)
Lemma includes_iff (s sub : string) :
  includes s sub = true <-> exists pre post, s = (pre ++ sub ++ post)%string.
Proof.
  induction s as [|c s IH]; cbn [includes]; rewrite orb_true_iff, prefix_iff.
  - split.
    + intros [[post H]|H]; [now exists "", post|discriminate].
    + intros (pre & post & H). left. destruct pre; [now exists post|discriminate].
  - rewrite IH. split.
    + intros [[post H]|(pre & post & H)];
        [now exists "", post|exists (String c pre), post; cbn; now rewrite H].
    + intros (pre & post & H). destruct pre as [|d pre]; cbn in H.
      * left. now exists post.
      * right. inversion H. now exists pre, post.
Qed.

Variable parse : string -> option URL.

Lemma isValidHttpsUrl_value urlString :
  isValidHttpsUrl parse urlString
  = Return match parse urlString with
           | Some url => String.eqb (protocol url) "https:"
           | None => false
           end.
Proof. unfold isValidHttpsUrl, newURL. now destruct (parse urlString). Qed.

Lemma isValidDomain_value urlString :
  isValidDomain parse urlString
  = Return match parse urlString with
           | Some url => negb (includes (hostname url) "localhost")
                         && negb (includes (hostname url) "127.0.0.1")
           | None => false
           end.
Proof. unfold isValidDomain, newURL. now destruct (parse urlString). Qed.

(** X10: [isValidDomain] returns a boolean on every input, [false] where
    the input does not parse, and [true] exactly when the host name of
    the parsed URL contains neither 'localhost' nor '127.0.0.1' anywhere;
    a public name that merely contains one of them is rejected too. *)
Theorem isValidDomain_rejects_any_occurrence (urlString : string) :
  exists b,
    isValidDomain parse urlString = Return b
    /\ (b = true <->
        exists url,
          parse urlString = Some url
          /\ (forall pre post, hostname url <> (pre ++ "localhost" ++ post)%string)
          /\ (forall pre post, hostname url <> (pre ++ "127.0.0.1" ++ post)%string)).
Proof.
  rewrite isValidDomain_value. eexists. split; [reflexivity|].
  destruct (parse urlString) as [url|].
  - rewrite andb_true_iff, !negb_true_iff. split.
    + intros [Hl Hi]. exists url. split; [reflexivity|]. split; intros pre post Heq.
      * assert (H : includes (hostname url) "localhost" = true)
          by (apply includes_iff; now exists pre, post).
        congruence.
      * assert (H : includes (hostname url) "127.0.0.1" = true)
          by (apply includes_iff; now exists pre, post).
        congruence.
    + intros (u & Hu & Hl & Hi). inversion Hu; subst u. split.
      * destruct (includes (hostname url) "localhost") eqn:H; [|reflexivity].
        apply includes_iff in H. destruct H as (pre & post & H). now apply Hl in H.
      * destruct (includes (hostname url) "127.0.0.1") eqn:H; [|reflexivity].
        apply includes_iff in H. destruct H as (pre & post & H). now apply Hi in H.
  - split; [discriminate|]. intros (u & Hu & _). discriminate.
Qed.

(** X11: [validateCallbackUrl] returns exactly for a URL that parses,
    uses 'https:' and has a host name free of 'localhost' and
    '127.0.0.1'; anything else raises a [ValidationError] whose field is
    the type followed by 'Url', with the HTTPS message for input that
    does not parse or is not HTTPS and the public-domain message
    otherwise. *)
Theorem validateCallbackUrl_exact (url : string) (type : CallbackType) :
  (validateCallbackUrl parse url type = Return tt <-> Accepted parse url)
  /\ (forall e, validateCallbackUrl parse url type = Throw e ->
        exists m,
          e = newValidationError m (Some (typeName type ++ "Url")%string)
          /\ (m = (typeName type ++ " URL must use HTTPS protocol")%string
              \/ m = (typeName type ++ " URL must be a public domain")%string)
          /\ (m = (typeName type ++ " URL must be a public domain")%string ->
              exists u, parse url = Some u /\ protocol u = "https:"))
  /\ (parse url = None ->
      validateCallbackUrl parse url type
      = Throw (newValidationError
                 (typeName type ++ " URL must use HTTPS protocol")%string
                 (Some (typeName type ++ "Url")%string))).
Proof.
  unfold validateCallbackUrl, Accepted.
  rewrite isValidHttpsUrl_value, isValidDomain_value. cbn [asThrown bind].
  destruct (parse url) as [u|]; cbn [negb].
  - destruct (String.eqb_spec (protocol u) "https:") as [Hp|Hp]; cbn [negb].
    + destruct (includes (hostname u) "localhost") eqn:Hl;
        destruct (includes (hostname u) "127.0.0.1") eqn:Hi; cbn;
        (split; [split; [try discriminate; intros _; now exists u
                        |try reflexivity; intros (u' & Hu & _ & Hl' & Hi');
                         inversion Hu; subst u'; congruence]|]);
        (split; [|discriminate]); intros e He; try discriminate;
        inversion He; eexists; (split; [reflexivity|]);
        (split; [now right|]); intros _; now exists u.
    + split; [split; [discriminate|intros (u' & Hu & Hp' & _);
                                   inversion Hu; subst u'; contradiction]|].
      split; [|discriminate]. intros e He. inversion He. eexists.
      split; [reflexivity|]. split; [now left|].
      destruct type; intros H; discriminate H.
  - split; [split; [discriminate|intros (u' & Hu & _); discriminate]|].
    split; [|reflexivity]. intros e He. inversion He. eexists.
    split; [reflexivity|]. split; [now left|].
    destruct type; intros H; discriminate H.
Qed.

End RegistrationFacts.

Section WrapperFacts.
Import Errors Url Registration.

Variable parse : string -> option URL.
Variable MPESA_BUSINESS_SHORTCODE : option string.
Variable response : Promise RegisterUrlResponse.

Lemma validateCallbackUrl_cases (url : string) (type : CallbackType) :
  (Accepted parse url /\ validateCallbackUrl parse url type = Return tt)
  \/ (~ Accepted parse url
      /\ exists m, validateCallbackUrl parse url type
                   = Throw (newValidationError m
                              (Some (typeName type ++ "Url")%string))).
Proof.
  unfold validateCallbackUrl, Accepted.
  rewrite isValidHttpsUrl_value, isValidDomain_value. cbn [asThrown bind].
  destruct (parse url) as [u|]; cbn [negb].
  - destruct (String.eqb_spec (protocol u) "https:") as [Hp|Hp]; cbn [negb].
    + destruct (includes (hostname u) "localhost") eqn:Hl;
        destruct (includes (hostname u) "127.0.0.1") eqn:Hi; cbn;
        [right|right|right|left; split; [now exists u|reflexivity]];
        (split; [intros (u' & Hu & _ & Hl' & Hi'); inversion Hu; subst u'; congruence
                |eexists; reflexivity]).
    + right. split; [intros (u' & Hu & Hp' & _); inversion Hu; subst u'; contradiction
                    |eexists; reflexivity].
  - right. split; [intros (u' & Hu & _); discriminate|eexists; reflexivity].
Qed.

Lemma accepted_is_https (url : string) :
  Accepted parse url -> isValidHttpsUrl parse url = Return true.
Proof.
  intros (u & Hu & Hp & _). rewrite isValidHttpsUrl_value, Hu.
  now rewrite (proj2 (String.eqb_eq _ _) Hp).
Qed.

(** X12: [validateAndRegister] calls [register] only when both URLs are
    accepted by [validateCallbackUrl], then once, with the two URLs, and
    exactly as [registerCallbackUrls] does; otherwise it makes no call
    and rejects with a [ValidationError] naming the confirmation URL
    when that one is not accepted, whatever the validation URL, and the
    validation URL otherwise. *)
Theorem validateAndRegister_registers_only_accepted (confirmationUrl validationUrl : string) :
  (forall a,
      In a (registerCalls (validateAndRegister parse MPESA_BUSINESS_SHORTCODE response
                             confirmationUrl validationUrl)) ->
      a = registerArgs MPESA_BUSINESS_SHORTCODE confirmationUrl validationUrl
      /\ Accepted parse confirmationUrl /\ Accepted parse validationUrl)
  /\ (Accepted parse confirmationUrl -> Accepted parse validationUrl ->
      validateAndRegister parse MPESA_BUSINESS_SHORTCODE response
        confirmationUrl validationUrl
      = {| outcome := response;
           registerCalls := [registerArgs MPESA_BUSINESS_SHORTCODE
                               confirmationUrl validationUrl] |}
      /\ registerCallbackUrls parse MPESA_BUSINESS_SHORTCODE response
           confirmationUrl validationUrl
         = validateAndRegister parse MPESA_BUSINESS_SHORTCODE response
             confirmationUrl validationUrl)
  /\ (~ Accepted parse confirmationUrl ->
      exists m,
        validateAndRegister parse MPESA_BUSINESS_SHORTCODE response
          confirmationUrl validationUrl
        = {| outcome := Throw (newValidationError m (Some "confirmationUrl"));
             registerCalls := [] |})
  /\ (Accepted parse confirmationUrl -> ~ Accepted parse validationUrl ->
      exists m,
        validateAndRegister parse MPESA_BUSINESS_SHORTCODE response
          confirmationUrl validationUrl
        = {| outcome := Throw (newValidationError m (Some "validationUrl"));
             registerCalls := [] |}).
Proof.
  unfold validateAndRegister, registerCallbackUrls.
  destruct (validateCallbackUrl_cases confirmationUrl confirmation)
    as [[Hc Hrc]|[Hc [mc Hrc]]]; rewrite Hrc;
    [destruct (validateCallbackUrl_cases validationUrl validation)
       as [[Hv Hrv]|[Hv [mv Hrv]]]; rewrite Hrv|]; cbn [registerCalls].
  - rewrite (accepted_is_https Hc), (accepted_is_https Hv). cbn.
    split; [intros a [<-|[]]; now repeat split|].
    split; [intros _ _; split; reflexivity|].
    split; [intros H; contradiction|intros _ H; contradiction].
  - split; [intros a []|].
    split; [intros _ H; contradiction|].
    split; [intros H; contradiction|intros _ _; now exists mv].
  - split; [intros a []|].
    split; [intros H; contradiction|].
    split; [intros _; now exists mc|intros H; contradiction].
Qed.

(** X13: [registerCallbackUrls] looks at the protocol only: it calls
    [register], once, exactly when both inputs parse as 'https:' URLs,
    whatever their host names, and otherwise rejects without a call,
    naming the confirmation URL first. *)
Theorem registerCallbackUrls_checks_protocol_only (confirmationUrl validationUrl : string) :
  (isValidHttpsUrl parse confirmationUrl = Return true ->
   isValidHttpsUrl parse validationUrl = Return true ->
   registerCallbackUrls parse MPESA_BUSINESS_SHORTCODE response
     confirmationUrl validationUrl
   = {| outcome := response;
        registerCalls := [registerArgs MPESA_BUSINESS_SHORTCODE
                            confirmationUrl validationUrl] |})
  /\ (isValidHttpsUrl parse confirmationUrl = Return false ->
      registerCallbackUrls parse MPESA_BUSINESS_SHORTCODE response
        confirmationUrl validationUrl
      = {| outcome := Throw (newValidationError "Invalid confirmation URL format"
                               (Some "confirmationUrl"));
           registerCalls := [] |})
  /\ (isValidHttpsUrl parse confirmationUrl = Return true ->
      isValidHttpsUrl parse validationUrl = Return false ->
      registerCallbackUrls parse MPESA_BUSINESS_SHORTCODE response
        confirmationUrl validationUrl
      = {| outcome := Throw (newValidationError "Invalid validation URL format"
                               (Some "validationUrl"));
           registerCalls := [] |})
  /\ (forall u v,
        parse confirmationUrl = Some u -> protocol u = "https:" ->
        parse validationUrl = Some v -> protocol v = "https:" ->
        includes (hostname u) "localhost" = true ->
        registerCalls (registerCallbackUrls parse MPESA_BUSINESS_SHORTCODE response
                         confirmationUrl validationUrl)
        = [registerArgs MPESA_BUSINESS_SHORTCODE confirmationUrl validationUrl]
        /\ registerCalls (validateAndRegister parse MPESA_BUSINESS_SHORTCODE response
                            confirmationUrl validationUrl)
           = []).
Proof.
  unfold registerCallbackUrls. split; [|split; [|split]].
  - intros Hc Hv. now rewrite Hc, Hv.
  - intros Hc. now rewrite Hc.
  - intros Hc Hv. now rewrite Hc, Hv.
  - intros u v Hc Hp Hv Hq Hlocal.
    rewrite !isValidHttpsUrl_value, Hc, Hv, (proj2 (String.eqb_eq _ _) Hp),
      (proj2 (String.eqb_eq _ _) Hq). cbn.
    split; [reflexivity|]. unfold validateAndRegister.
    destruct (validateCallbackUrl_cases confirmationUrl confirmation)
      as [[(u' & Hu' & _ & Hl' & _) _]|[_ [m Hm]]].
    + rewrite Hc in Hu'. inversion Hu'; subst u'. congruence.
    + now rewrite Hm.
Qed.

End WrapperFacts.

(** The two wrappers on sample URLs: a 'localhost' callback reaches
    [register] through [registerCallbackUrls] and is stopped by
    [validateAndRegister]; an 'http:' one is stopped by both. *)
Example wrappers_on_samples :
  Registration.registerCalls
    (Registration.registerCallbackUrls Samples.parse (Some "174379") Samples.accepted
       "https://localhost:3000/confirm" "https://example.com/validate")
  = [Registration.registerArgs (Some "174379")
       "https://localhost:3000/confirm" "https://example.com/validate"]
  /\ Registration.validateAndRegister Samples.parse (Some "174379") Samples.accepted
       "https://localhost:3000/confirm" "https://example.com/validate"
     = {| Registration.outcome :=
            Throw (Errors.newValidationError "confirmation URL must be a public domain"
                     (Some "confirmationUrl"));
          Registration.registerCalls := [] |}
  /\ Registration.validateAndRegister Samples.parse (Some "174379") Samples.accepted
       "http://example.com/confirm" "not a url"
     = {| Registration.outcome :=
            Throw (Errors.newValidationError "confirmation URL must use HTTPS protocol"
                     (Some "confirmationUrl"));
          Registration.registerCalls := [] |}
  /\ Registration.validateAndRegister Samples.parse (Some "174379") Samples.accepted
       "https://example.com/confirm" "https://example.com/validate"
     = {| Registration.outcome := Samples.accepted;
          Registration.registerCalls :=
            [Registration.registerArgs (Some "174379")
               "https://example.com/confirm" "https://example.com/validate"] |}
  /\ Registration.isValidDomain Samples.parse "https://mylocalhost.example.com/confirm"
     = Return false.
Proof. repeat split. Qed.

(** *** [UrlManager] *)

Section UrlManagerFacts.
Import Errors Registration.

Variable env : option string.

Lemma differs_same (url : string) : differs (Some url) url = false.
Proof. cbn. now rewrite String.eqb_refl. Qed.

Lemma differs_other (url other : string) :
  other <> url -> differs (Some url) other = true.
Proof.
  intros H. cbn. destruct (String.eqb_spec url other); [congruence|reflexivity].
Qed.

(** X14: once a call of [ensureUrlsRegistered] has succeeded, a further
    call with the same two URLs calls [register] no more and leaves the
    manager unchanged, while a call with another confirmation or
    validation URL calls [register] with the new pair; a failed
    registration leaves the manager as it was. *)
Theorem ensureUrlsRegistered_registers_once
    (now later : Z) (ok : RegisterUrlResponse) (again : Promise RegisterUrlResponse)
    (confirmationUrl validationUrl : string) (this : Urls) :
  ensureUrlsRegistered env later again confirmationUrl validationUrl
    (urls (ensureUrlsRegistered env now (Return ok) confirmationUrl validationUrl this))
  = {| ensured := Return tt;
       urls := urls (ensureUrlsRegistered env now (Return ok)
                       confirmationUrl validationUrl this);
       calls := [] |}
  /\ (forall confirmationUrl' validationUrl',
        confirmationUrl' <> confirmationUrl \/ validationUrl' <> validationUrl ->
        calls (ensureUrlsRegistered env later again confirmationUrl' validationUrl'
                 (urls (ensureUrlsRegistered env now (Return ok)
                          confirmationUrl validationUrl this)))
        = [registerArgs env confirmationUrl' validationUrl'])
  /\ (forall e,
        urls (ensureUrlsRegistered env now (Throw e) confirmationUrl validationUrl this)
        = this).
Proof.
  unfold ensureUrlsRegistered.
  destruct (differs (confirmationOf this) confirmationUrl
            || differs (validationOf this) validationUrl
            || negb (registered this)) eqn:Hneeds; cbn [calls urls].
  - split; [|split].
    + cbn [confirmationOf validationOf registered]. now rewrite !differs_same.
    + intros c' v' Hother. cbn [confirmationOf validationOf registered].
      destruct Hother as [H|H]; rewrite (differs_other H);
        rewrite ?orb_true_r; cbn [orb]; now destruct again.
    + reflexivity.
  - apply orb_false_iff in Hneeds. destruct Hneeds as [Hcv Hreg].
    apply orb_false_iff in Hcv. destruct Hcv as [Hc Hv].
    split; [|split].
    + now rewrite Hc, Hv, Hreg.
    + intros c' v' Hother.
      destruct (confirmationOf this) as [c|]; [|discriminate].
      destruct (validationOf this) as [v|]; [|discriminate].
      cbn in Hc, Hv. apply negb_false_iff, String.eqb_eq in Hc, Hv. subst c v.
      destruct Hother as [H|H]; rewrite (differs_other H);
        rewrite ?orb_true_r; cbn [orb]; now destruct again.
    + reflexivity.
Qed.

(** What the manager holds after any sequence of calls: nothing, or the
    two URLs and the time of a successful registration among them. *)
Lemma after_snoc this requests r :
  after env this (requests ++ [r])
  = urls (ensureUrlsRegistered env (at_time r) (with_response r)
            (confirmationWanted r) (validationWanted r) (after env this requests)).
Proof. unfold after. now rewrite fold_left_app. Qed.

(** X15: whatever calls have been made on a new manager, it is either
    still in its initial state or marked registered and holding both
    URLs and the time of one of the calls whose registration succeeded;
    it is never marked registered with a URL missing. *)
Theorem urlManager_holds_a_successful_registration (requests : list Request) :
  after env initialUrls requests = initialUrls
  \/ exists r ok,
       In r requests /\ with_response r = Return ok
       /\ after env initialUrls requests
          = {| confirmationOf := Some (confirmationWanted r);
               validationOf := Some (validationWanted r);
               registered := true; lastRegistered := Some (at_time r) |}.
Proof.
  induction requests as [|r requests IH] using rev_ind; [now left|].
  rewrite after_snoc. unfold ensureUrlsRegistered.
  destruct (differs (confirmationOf (after env initialUrls requests))
              (confirmationWanted r)
            || differs (validationOf (after env initialUrls requests))
                 (validationWanted r)
            || negb (registered (after env initialUrls requests))).
  - destruct (with_response r) as [ok|e] eqn:Hresp; cbn [urls].
    + right. exists r, ok. split; [apply in_or_app; right; now left|].
      split; [exact Hresp|reflexivity].
    + destruct IH as [IH|(r' & ok & Hin & Hok & IH)]; [now left|].
      right. exists r', ok. split; [apply in_or_app; now left|]. now split.
  - cbn [urls]. destruct IH as [IH|(r' & ok & Hin & Hok & IH)]; [now left|].
    right. exists r', ok. split; [apply in_or_app; now left|]. now split.
Qed.

End UrlManagerFacts.

(** ** Payout helpers *)

Section PayoutValidatorFacts.
Import Errors Validation Payouts.

(** A string a pattern accepts has one character per atom. *)
Lemma test_length (pattern : list Atom) : forall s,
  test pattern s = true -> String.length s = List.length pattern.
Proof.
  induction pattern as [|a pattern IH]; intros [|c s]; cbn; try discriminate.
  - reflexivity.
  - rewrite andb_true_iff. intros [_ H]. f_equal. now apply IH.
Qed.

(** X16: the payout validator and the payment validation disagree on
    every phone number: a string [PayoutValidator.validatePhoneNumber]
    accepts has twelve characters beginning '254' and is rejected by the
    pattern of [validatePaymentDetails], which asks for '251'. *)
Theorem payout_phone_numbers_fail_payment_validation (s : string) :
  validatePhoneNumber s = true ->
  String.length s = 12%nat
  /\ String.prefix "254" s = true
  /\ test phonePattern s = false.
Proof.
  intros Hs. split; [exact (test_length _ _ Hs)|]. revert Hs.
  unfold validatePhoneNumber, payoutPhonePattern. cbn [repeat app].
  destruct s as [|a [|b [|c s]]]; cbn [test atom_matches];
    rewrite ?andb_false_r; try discriminate.
  rewrite !andb_true_iff. intros (Ha & Hb & Hc & _).
  apply Ascii.eqb_eq in Ha, Hb, Hc. subst a b c.
  split; [now destruct s|reflexivity].
Qed.

Lemma ltb_zero_excludes (a : float) :
  (0 <? a)%float = true -> (a <=? 0)%float = false /\ is_nan a = false.
Proof.
  unfold is_nan. rewrite leb_spec, ltb_spec, eqb_spec.
  unfold SFleb, SFltb, SFeqb.
  replace (Prim2SF 0) with (S754_zero false) by reflexivity.
  destruct (Prim2SF a) as [s|s| |s m e]; try destruct s; cbn;
    intros H; try discriminate; split; try reflexivity.
  all: rewrite ?Z.compare_refl, ?Pos.compare_refl; reflexivity.
Qed.

(** X17: an amount [PayoutValidator.validateAmount] accepts is a number,
    not NaN, and passes the amount check of [validatePaymentDetails]: a
    payment with that amount is never rejected for its amount. *)
Theorem validated_amount_passes_payment_check (d : PaymentDetails) :
  validateAmount (Validation.amount d) = true ->
  is_nan (Validation.amount d) = false
  /\ thrownField (validatePaymentDetails d) <> Some "amount"
  /\ (validatePaymentDetails d = Return tt <->
      forallb (fun r => snd r d) (tl rules) = true).
Proof.
  unfold validateAmount. rewrite andb_true_iff. intros [Hpos _].
  destruct (ltb_zero_excludes Hpos) as [Hle Hnan].
  split; [exact Hnan|].
  unfold validatePaymentDetails, rules, phoneRule, callbackRule, referenceRule,
    descriptionRule.
  rewrite Hle, !length_check. cbn [tl forallb fst snd].
  generalize (test phonePattern (Validation.phoneNumber d)),
    (startsWith (callbackUrl d) "https://"),
    (String.length (reference d) <=? 12)%nat,
    (String.length (description d) <=? 13)%nat.
  intros [] [] [] []; cbn; split; try discriminate;
    split; (reflexivity || discriminate).
Qed.

End PayoutValidatorFacts.

Lemma payout_phone_numbers_fail_payment_validation_witness :
  Payouts.validatePhoneNumber "254712345678" = true
  /\ Validation.test Validation.phonePattern "254712345678" = false.
Proof.
  split; [reflexivity|].
  exact (proj2 (proj2 (@payout_phone_numbers_fail_payment_validation
                         "254712345678" eq_refl))).
Defined.

Lemma validated_amount_passes_payment_check_witness :
  Payouts.validateAmount 1500%float = true
  /\ Validation.thrownField
       (Validation.validatePaymentDetails
          {| Validation.amount := 1500%float; Validation.phoneNumber := "0712";
             Validation.callbackUrl := "https://example.com/cb";
             Validation.reference := "r"; Validation.description := "d" |})
     <> Some "amount".
Proof.
  split; [reflexivity|].
  exact (proj1 (proj2 (@validated_amount_passes_payment_check
                         {| Validation.amount := 1500%float;
                            Validation.phoneNumber := "0712";
                            Validation.callbackUrl := "https://example.com/cb";
                            Validation.reference := "r";
                            Validation.description := "d" |}
                         eq_refl))).
Defined.

Example payout_validator_examples :
  Payouts.validateAmount nan = false
  /\ Payouts.validateAmount 0%float = false
  /\ Payouts.validateAmount 150000%float = true
  /\ Payouts.validateAmount 150000.5%float = false
  /\ Payouts.validateRemarks "" = false
  /\ Payouts.validateCommandId "SalaryPayment" = true
  /\ Payouts.validateCommandId "salarypayment" = false.
Proof. repeat split. Qed.

Section PayoutTrackerFacts.
Import Payouts.

Lemma get_set_same id payout payouts : get id (set id payout payouts) = Some payout.
Proof. unfold get, set. now rewrite String.eqb_refl. Qed.

Lemma get_set_other id key payout payouts :
  key <> id -> get key (set id payout payouts) = get key payouts.
Proof.
  intros H. unfold get, set. destruct (String.eqb_spec key id); [contradiction|reflexivity].
Qed.

(** X18: [updateStatus] touches the record of its conversation id only:
    for an id that is not tracked it changes nothing and creates no
    record, and the record of every other id is left as it was. *)
Theorem updateStatus_is_local
    (id : string) (newStatus : Status) (newTransactionId : option string)
    (payouts : Tracker) :
  (get id payouts = None ->
   updateStatus id newStatus newTransactionId payouts = payouts)
  /\ (forall key, key <> id ->
        get key (updateStatus id newStatus newTransactionId payouts)
        = get key payouts)
  /\ (forall key,
        get key (updateStatus id newStatus newTransactionId payouts) = None
        <-> get key payouts = None).
Proof.
  unfold updateStatus. destruct (get id payouts) as [payout|] eqn:Hid.
  - split; [discriminate|]. split.
    + intros key Hkey. now apply get_set_other.
    + intros key. destruct (String.eqb_spec key id) as [->|Hkey].
      * rewrite get_set_same, Hid. split; discriminate.
      * now rewrite get_set_other.
  - split; [reflexivity|]. split; [reflexivity|]. intros key. reflexivity.
Qed.

(** X19: a tracked payout that is then updated reads back with the data
    it was tracked with, the new status, and the transaction id given; an
    update whose transaction id is absent or empty keeps the id recorded
    before, and tracking the same conversation again starts over as
    pending with no transaction id. *)
Theorem track_update_read_back
    (id : string) (data : PayoutData) (now : Z) (newStatus : Status)
    (newTransactionId : option string) (payouts : Tracker) :
  get id (updateStatus id newStatus newTransactionId (trackPayout id data now payouts))
  = Some {| trackedRequestId := requestId data; trackedAmount := amount data;
            recipient := phoneNumber data; timestamp := now; status := newStatus;
            transactionId := if truthy newTransactionId then newTransactionId
                             else None |}
  /\ (forall payout,
        get id payouts = Some payout -> truthy newTransactionId = false ->
        option_map transactionId
          (get id (updateStatus id newStatus newTransactionId payouts))
        = Some (transactionId payout))
  /\ (forall later,
        get id (trackPayout id data later
                  (updateStatus id newStatus newTransactionId
                     (trackPayout id data now payouts)))
        = Some {| trackedRequestId := requestId data; trackedAmount := amount data;
                  recipient := phoneNumber data; timestamp := later;
                  status := pending; transactionId := None |}).
Proof.
  split; [|split].
  - unfold updateStatus, trackPayout. rewrite get_set_same. cbn.
    now rewrite get_set_same.
  - intros payout Hid Hfalsy. unfold updateStatus. rewrite Hid, get_set_same.
    cbn. now rewrite Hfalsy.
  - intros later. unfold trackPayout at 1. now rewrite get_set_same.
Qed.

End PayoutTrackerFacts.

Section ProcessBatchFacts.
Import Errors Payouts.

Variable send : nat -> SendArgs -> Promise PayoutResponse.

Lemma attempted_cons k data payouts :
  attempted send k (data :: payouts)
  = (data, send k (sendArgs data)) :: attempted send (S k) payouts.
Proof. reflexivity. Qed.

Lemma processFrom_spec payouts : forall k results,
  processFrom send k payouts results
  = {| successful := successful results ++ responsesOf (attempted send k payouts);
       failedPayouts := failedPayouts results ++ failuresOf (attempted send k payouts) |}.
Proof.
  induction payouts as [|data payouts IH]; intros k results.
  - cbn. rewrite !app_nil_r. now destruct results.
  - cbn [processFrom]. rewrite attempted_cons.
    destruct (send k (sendArgs data)) as [r|e]; rewrite IH; cbn;
      now rewrite <- app_assoc.
Qed.

Lemma outcomes_split (l : list (PayoutData * Promise PayoutResponse)) :
  (List.length (responsesOf l) + List.length (failuresOf l))%nat = List.length l.
Proof.
  induction l as [|[d [r|e]] l IH]; cbn; lia.
Qed.

(** X20: [processBatch] sends every payout of the batch once, in order,
    and sorts each into exactly one of its two lists: the responses of
    the sends that succeeded, in order, and the failed payouts with their
    errors, in order; a failure stops neither the batch nor the later
    sends, and the two lists together are as long as the batch. *)
Theorem processBatch_partitions_the_batch (payouts : list PayoutData) :
  successful (processBatch send payouts) = responsesOf (attempted send 0 payouts)
  /\ failedPayouts (processBatch send payouts)
     = failuresOf (attempted send 0 payouts)
  /\ map fst (attempted send 0 payouts) = payouts
  /\ (List.length (successful (processBatch send payouts))
      + List.length (failedPayouts (processBatch send payouts)))%nat
     = List.length payouts.
Proof.
  unfold processBatch. rewrite processFrom_spec. cbn [successful failedPayouts app].
  split; [reflexivity|]. split; [reflexivity|].
  assert (Hfst : forall k, map fst (attempted send k payouts) = payouts).
  { induction payouts as [|d l IH]; intros k; [reflexivity|].
    rewrite attempted_cons. cbn. now rewrite IH. }
  split; [apply Hfst|].
  rewrite outcomes_split. rewrite <- (Hfst 0%nat) at 2. now rewrite length_map.
Qed.

End ProcessBatchFacts.

Example processBatch_sample :
  Payouts.processBatch
    (fun k _ =>
       match k with
       | 1%nat => Throw (Errors.newPayoutError "Insufficient funds" None None
                           (Some "A001") None)
       | _ => Return {| Payouts.ConversationID := "AG_1";
                        Payouts.OriginatorConversationID := "1";
                        Payouts.ResponseCode := "0";
                        Payouts.ResponseDescription := "Accepted" |}
       end)
    [{| Payouts.requestId := "a"; Payouts.amount := 1000%float;
        Payouts.phoneNumber := "251712345678"; Payouts.remarks := "Salary - John";
        Payouts.occasion := None; Payouts.commandId := Some "SalaryPayment" |};
     {| Payouts.requestId := "b"; Payouts.amount := 2000%float;
        Payouts.phoneNumber := "251712345679"; Payouts.remarks := "Salary - Jane";
        Payouts.occasion := None; Payouts.commandId := Some "SalaryPayment" |};
     {| Payouts.requestId := "c"; Payouts.amount := 3000%float;
        Payouts.phoneNumber := "251712345670"; Payouts.remarks := "Salary - Joe";
        Payouts.occasion := None; Payouts.commandId := Some "SalaryPayment" |}]
  = {| Payouts.successful :=
         [{| Payouts.ConversationID := "AG_1"; Payouts.OriginatorConversationID := "1";
             Payouts.ResponseCode := "0"; Payouts.ResponseDescription := "Accepted" |};
          {| Payouts.ConversationID := "AG_1"; Payouts.OriginatorConversationID := "1";
             Payouts.ResponseCode := "0"; Payouts.ResponseDescription := "Accepted" |}];
       Payouts.failedPayouts :=
         [({| Payouts.requestId := "b"; Payouts.amount := 2000%float;
              Payouts.phoneNumber := "251712345679";
              Payouts.remarks := "Salary - Jane"; Payouts.occasion := None;
              Payouts.commandId := Some "SalaryPayment" |},
           Errors.newPayoutError "Insufficient funds" None None (Some "A001") None)] |}.
Proof. reflexivity. Qed.

(** ** Logging and reporting errors *)

Section ReportingFacts.
Import Errors Reporting.

(** X21: [logError] names the class of the error and copies the
    structured members of a [StkPushError], a [PayoutError] and a
    [ValidationError] in full; for every other error, the
    [AuthenticationError] with its [errorCode] and the
    [RegisterUrlError] with its [responseCode] and [shortCode] included,
    the logged details are empty; the stack is logged in development
    only. *)
Theorem logError_details_by_class
    (now : string) (development : bool) (stackOf : Thrown -> option string)
    (error : Thrown) :
  errorType (logError now development stackOf error) = name (classOf error)
  /\ logMessage (logError now development stackOf error) = message error
  /\ (In (classOf error) [StkPushError; PayoutError; ValidationError] ->
      details (logError now development stackOf error) = props error)
  /\ (~ In (classOf error) [StkPushError; PayoutError; ValidationError] ->
      details (logError now development stackOf error) = [])
  /\ (In (classOf error) [AuthenticationError; RegisterUrlError] ->
      details (logError now development stackOf error) = [] /\ props error <> [])
  /\ (development = false -> stack (logError now development stackOf error) = None).
Proof.
  split; [reflexivity|]. split; [reflexivity|].
  split; [|split; [|split]].
  - destruct error; cbn; intros H; try reflexivity;
      repeat (destruct H as [H|H]; try discriminate H); contradiction.
  - destruct error; cbn; intros H; try reflexivity; exfalso; apply H; tauto.
  - destruct error; cbn; intros H;
      repeat (destruct H as [H|H]; try discriminate H); try contradiction;
      split; (reflexivity || discriminate).
  - intros ->. reflexivity.
Qed.


End ReportingFacts.

(** ** The class hierarchy under [instanceof] *)

Section HierarchyFacts.
Import Errors.

(** X23: under [instanceof] the six SDK classes are disjoint and all
    fall under [MpesaError]: an error is an instance of one of the six
    exactly when it was made by that class, every error object is an
    instance of [Error], and it is an instance of [MpesaError] exactly
    when it is not a plain [Error]; so a chain of [instanceof] tests on
    the six classes gives the same branch in any order. *)
Theorem instanceOf_variants_disjoint (e : Thrown) :
  (forall c, In c variants -> (instanceOf e c = true <-> classOf e = c))
  /\ instanceOf e Error = true
  /\ (instanceOf e MpesaError = true <-> classOf e <> Error)
  /\ (forall c d, In c variants -> In d variants ->
        instanceOf e c = true -> instanceOf e d = true -> c = d).
Proof.
  assert (Hone : forall c, In c variants -> (instanceOf e c = true <-> classOf e = c)).
  { intros c Hc. apply variants_direct_subclasses in Hc.
    destruct c; try discriminate Hc; destruct e; cbn;
      split; (reflexivity || discriminate). }
  split; [exact Hone|]. split; [now destruct e|]. split.
  - destruct e; cbn; split; (reflexivity || discriminate || tauto || congruence).
  - intros c d Hc Hd Hec Hed.
    apply Hone in Hec; [|exact Hc]. apply Hone in Hed; [|exact Hd]. congruence.
Qed.

End HierarchyFacts.

(** ** Successive calls on one token manager *)

Section TokenSequenceFacts.
Import Errors Token.

(** X24: after a call of [getToken] that exchanged successfully at
    [later], every further call made before the token's lapse less the
    buffer, that is before [later + expiresIn * 1000 - 60000], returns
    the same token with no exchange and leaves the manager alone; a call
    made from that instant on exchanges again. *)
Theorem getToken_reuses_until_buffer
    (this : TokenManager) (now later next after : Z) (g : Generated)
    (response : Promise Generated) :
  exchanges (getToken now later (Return g) this) = 1%nat ->
  (next < later + expiresIn g * 1000 - BUFFER ->
   getToken next after response (manager (getToken now later (Return g) this))
   = {| result := Return (generated g);
        manager := manager (getToken now later (Return g) this);
        exchanges := 0 |})
  /\ (later + expiresIn g * 1000 - BUFFER <= next ->
      exchanges
        (getToken next after response (manager (getToken now later (Return g) this)))
      = 1%nat).
Proof.
  intros Hexchanged.
  assert (Hm : manager (getToken now later (Return g) this) = Some (install later g)).
  { revert Hexchanged. unfold getToken.
    destruct (getToken_enter now this); cbn; [discriminate|reflexivity]. }
  rewrite Hm. unfold getToken. rewrite getToken_enter_cached, expiry_install.
  change (token (install later g)) with (generated g).
  destruct (Z.ltb_spec next (later + expiresIn g * 1000 - BUFFER)) as [Hlt|Hge].
  - split; [intros _; reflexivity|intros H; lia].
  - split; [intros H; lia|intros _; reflexivity].
Qed.

(** Once the manager has nothing valid to return it stays so as the
    clock advances. *)
Lemma stale_stays_stale (this : TokenManager) (now next : Z) :
  getToken_enter now this = Awaiting -> now <= next ->
  getToken_enter next this = Awaiting.
Proof.
  unfold getToken_enter. destruct this as [tokenData|]; [|reflexivity].
  destruct (Z.geb_spec now (expiresAt tokenData)); [|discriminate].
  intros _ Hle. destruct (Z.geb_spec next (expiresAt tokenData)); [reflexivity|lia].
Qed.

(** X25: when the exchange fails, [getToken] rejects with the error of
    the exchange itself and keeps what it had, a lapsed record included;
    so every later call exchanges again until one succeeds. *)
Theorem getToken_failed_exchange_is_retried_by_next_call
    (this : TokenManager) (now later next after : Z) (e : Thrown)
    (response : Promise Generated) :
  getToken_enter now this = Awaiting ->
  now <= next ->
  getToken now later (Throw e) this
  = {| result := Throw e; manager := this; exchanges := 1 |}
  /\ exchanges
       (getToken next after response (manager (getToken now later (Throw e) this)))
     = 1%nat.
Proof.
  intros Hstale Hle. unfold getToken at 1 3. rewrite Hstale. cbn.
  split; [reflexivity|]. unfold getToken.
  now rewrite (stale_stays_stale this Hstale Hle).
Qed.

End TokenSequenceFacts.

Lemma getToken_reuses_until_buffer_witness :
  Token.exchanges
    (Token.getToken 0 5
       (Return {| Token.generated := "abc"; Token.tokenType := "Bearer";
                  Token.expiresIn := 3600 |})
       Token.fresh)
  = 1%nat
  /\ Token.getToken 3540004 3540100 (Throw (Errors.newNetworkError "down"))
       (Token.manager
          (Token.getToken 0 5
             (Return {| Token.generated := "abc"; Token.tokenType := "Bearer";
                        Token.expiresIn := 3600 |})
             Token.fresh))
     = {| Token.result := Return "abc";
          Token.manager := Some {| Token.token := "abc"; Token.expiresAt := 3540005 |};
          Token.exchanges := 0 |}.
Proof.
  split; [reflexivity|].
  apply (proj1 (@getToken_reuses_until_buffer Token.fresh 0 5 3540004 3540100
                  {| Token.generated := "abc"; Token.tokenType := "Bearer";
                     Token.expiresIn := 3600 |}
                  (Throw (Errors.newNetworkError "down")) eq_refl)).
  unfold Token.BUFFER. cbn. lia.
Defined.

Lemma getToken_failed_exchange_is_retried_by_next_call_witness :
  Token.getToken_enter 100 (Some {| Token.token := "old"; Token.expiresAt := 50 |})
  = Token.Awaiting
  /\ 100 <= 200
  /\ Token.getToken 100 110 (Throw (Errors.newNetworkError "down"))
       (Some {| Token.token := "old"; Token.expiresAt := 50 |})
     = {| Token.result := Throw (Errors.newNetworkError "down");
          Token.manager := Some {| Token.token := "old"; Token.expiresAt := 50 |};
          Token.exchanges := 1 |}.
Proof.
  split; [reflexivity|]. split; [lia|].
  exact (proj1 (@getToken_failed_exchange_is_retried_by_next_call
                  (Some {| Token.token := "old"; Token.expiresAt := 50 |})
                  100 110 200 210 (Errors.newNetworkError "down")
                  (Throw (Errors.newNetworkError "down")) eq_refl ltac:(lia))).
Defined.
